(** * PixelKit v2: pin registry, pause configuration and input polling

    A shallow embedding of [lib - CircuitPython/pixelkit.py] (class
    [PixelKit]) and of [lib/pausebutton.py] (class [PauseButton]).

    Conventions of the embedding.
    - Python objects of the drivers ([digitalio.DigitalInOut],
      [analogio.AnalogIn]) live in a heap; a handle is the index of the
      object, so two names for one object are two copies of one index.
    - The class attributes [_dio_registry] and [_ain_registry] are
      dictionaries keyed by the board pin; they are finite maps here.
    - The module [board] is the board's, not the repository's: it is a
      class [Board] whose instance supplies the pins the code names and the
      dynamic lookup [getattr(board, name)].
    - The driver constructors are taken to return a fresh object when
      they are given a pin; given anything else they raise.
    - Raw levels and samples are read from a [Hardware] snapshot that is
      fixed during one call and chosen freely between two calls.
    - Everything a poll does towards the outside (reading a value, calling
      a hook, driving the strip) is appended to a trace, in program order.
      The hooks themselves are the subclass's; the base class bodies
      [return False] change nothing.
    - Text sent to [print] is not part of the model. *)

From Stdlib Require Import ZArith Ascii String List Bool Lia.
From stdpp Require Import base option list gmap strings.

Local Open Scope string_scope.
Local Open Scope list_scope.

(** ** Python text operations used by the loaders *)

Module Py.

(** [str.isspace] on one character, as the interpreter of the board has
    it: blank, tab, line feed, vertical tab, form feed, carriage return. *)
Definition isspace (c : ascii) : bool :=
  let n := N_of_ascii c in
  ((9 <=? n)%N && (n <=? 13)%N) || (n =? 32)%N.

Fixpoint lstrip (s : string) : string :=
  match s with
  | EmptyString => EmptyString
  | String c s' => if isspace c then lstrip s' else s
  end.

Definition rstrip (s : string) : string :=
  String.rev (lstrip (String.rev s)).

(** [s.strip()] *)
Definition strip (s : string) : string := rstrip (lstrip s).

(** [s.split(sep)] for a separator of one character: every occurrence
    cuts, empty fields are kept, so the result is never empty. *)
Fixpoint split (sep : ascii) (s : string) : list string :=
  match s with
  | EmptyString => [EmptyString]
  | String c s' =>
      if Ascii.eqb c sep then EmptyString :: split sep s'
      else match split sep s' with
           | [] => [String c EmptyString]
           | p :: ps => String c p :: ps
           end
  end.

Definition upper_char (c : ascii) : ascii :=
  let n := N_of_ascii c in
  if ((97 <=? n)%N && (n <=? 122)%N) then ascii_of_N (n - 32) else c.

(** [s.upper()] *)
Fixpoint upper (s : string) : string :=
  match s with
  | EmptyString => EmptyString
  | String c s' => String (upper_char c) (upper s')
  end.

(** [f.readline()] on a file just opened: the text up to and including
    the first line feed, or all of it when there is none. *)
Fixpoint readline (s : string) : string :=
  match s with
  | EmptyString => EmptyString
  | String c s' =>
      if Ascii.eqb c "010"%char then String c EmptyString
      else String c (readline s')
  end.

(** Truth value of a [str]: [not line] holds exactly for the empty one. *)
Definition truthy (s : string) : bool :=
  match s with EmptyString => false | String _ _ => true end.

(** The exceptions that occur in the two files. *)
Inductive exn : Type :=
| OSError
| ValueError (msg : string)
| AttributeError (name : string)
| TypeError
| SystemExit.

(** [except Exception] catches everything but [SystemExit]. *)
Definition is_Exception (e : exn) : bool :=
  match e with SystemExit => false | _ => true end.

Inductive res (A : Type) : Type :=
| Ret (a : A)
| Raise (e : exn).
Arguments Ret {A} a.
Arguments Raise {A} e.

(** A file system as [open] sees it: [None] when [open] fails. *)
Definition files : Type := string -> option string.

End Py.

(** ** The board, the driver objects and the class-level registries *)

Module Hw.

(** PhysicalPin: the identity of a pin object of the board. *)
Definition pin : Type := N.

(** What an attribute of the module [board] can be. *)
Inductive board_attr : Type :=
| PinObj (p : pin)
| OtherObj.

Class Board : Type := {
  D4 : pin;  D5 : pin;  D18 : pin;  D23 : pin;
  D25 : pin; D26 : pin; D27 : pin;  D34 : pin;  D35 : pin;
  VP : pin;  VN : pin;
  (** [getattr(board, name)]; [None] is [AttributeError] *)
  board_getattr : string -> option board_attr
}.

Definition handle : Type := nat.

Inductive Direction : Type := INPUT | OUTPUT.
Inductive Pull : Type := UP | DOWN.

Record DigitalInOut : Type := {
  dio_pin : pin;
  direction : Direction;
  pull : option Pull
}.

Record AnalogIn : Type := { ain_pin : pin }.

Record World : Type := {
  dio_heap : list DigitalInOut;
  ain_heap : list AnalogIn;
  _dio_registry : gmap pin handle;
  _ain_registry : gmap pin handle
}.

Definition empty_world : World :=
  {| dio_heap := []; ain_heap := []; _dio_registry := ∅; _ain_registry := ∅ |}.

(** [digitalio.DigitalInOut(p)]: a new object, an input without pull. *)
Definition new_dio (p : pin) (w : World) : handle * World :=
  (length (dio_heap w),
   {| dio_heap := dio_heap w ++ [{| dio_pin := p; direction := INPUT; pull := None |}];
      ain_heap := ain_heap w;
      _dio_registry := _dio_registry w;
      _ain_registry := _ain_registry w |}).

(** [analogio.AnalogIn(p)] *)
Definition new_ain (p : pin) (w : World) : handle * World :=
  (length (ain_heap w),
   {| dio_heap := dio_heap w;
      ain_heap := ain_heap w ++ [{| ain_pin := p |}];
      _dio_registry := _dio_registry w;
      _ain_registry := _ain_registry w |}).

Definition update_dio (f : DigitalInOut -> DigitalInOut) (h : handle) (w : World) : World :=
  {| dio_heap := match dio_heap w !! h with
                 | Some d => <[h := f d]> (dio_heap w)
                 | None => dio_heap w
                 end;
     ain_heap := ain_heap w;
     _dio_registry := _dio_registry w;
     _ain_registry := _ain_registry w |}.

(** [dio.direction = d]; the assignment as written, whatever the driver
    does to the other attributes on its own is left out. *)
Definition set_direction (h : handle) (d : Direction) : World -> World :=
  update_dio (fun o => {| dio_pin := dio_pin o; direction := d; pull := pull o |}) h.

(** [dio.pull = q] *)
Definition set_pull (h : handle) (q : option Pull) : World -> World :=
  update_dio (fun o => {| dio_pin := dio_pin o; direction := direction o; pull := q |}) h.

(** [PixelKit._dio_registry[p] = h] *)
Definition register_dio (p : pin) (h : handle) (w : World) : World :=
  {| dio_heap := dio_heap w;
     ain_heap := ain_heap w;
     _dio_registry := <[p := h]> (_dio_registry w);
     _ain_registry := _ain_registry w |}.

(** [PixelKit._ain_registry[p] = h] *)
Definition register_ain (p : pin) (h : handle) (w : World) : World :=
  {| dio_heap := dio_heap w;
     ain_heap := ain_heap w;
     _dio_registry := _dio_registry w;
     _ain_registry := <[p := h]> (_ain_registry w) |}.

(** The pins the driver constructors were called with, oldest first. *)
Definition dio_bound (w : World) : list pin := dio_pin <$> dio_heap w.
Definition ain_bound (w : World) : list pin := ain_pin <$> ain_heap w.

(** How often a pin occurs in such a list. *)
Definition times (p : pin) (l : list pin) : nat :=
  length (filter (fun q => q = p) l).
Arguments times : simpl never.

(** Every handle the digital registry hands out is a live object. *)
Definition registry_live (w : World) : Prop :=
  forall p h, _dio_registry w !! p = Some h -> h < length (dio_heap w).

(** What the drivers report when the code reads [.value]. *)
Record Hardware : Type := {
  dvalue : handle -> bool;
  avalue : handle -> Z
}.

End Hw.

(** ** class PixelKit *)

Module PixelKit.
Import Py Hw.

Section WithBoard.
Context {board : Board}.

(** *** Pin helpers with registry *)

Definition _init_dio (instance : option handle) (board_pin : pin) (w : World)
  : handle * World :=
  match instance with
  | Some h => (h, w)
  | None =>
      match _dio_registry w !! board_pin with
      | Some h => (h, w)
      | None =>
          let '(dio, w1) := new_dio board_pin w in
          let w2 := set_direction dio INPUT w1 in
          let w3 := set_pull dio (Some UP) w2 in
          (dio, register_dio board_pin dio w3)
      end
  end.

Definition _init_ain (instance : option handle) (board_pin : pin) (w : World)
  : handle * World :=
  match instance with
  | Some h => (h, w)
  | None =>
      match _ain_registry w !! board_pin with
      | Some h => (h, w)
      | None =>
          let '(ain, w1) := new_ain board_pin w in
          (ain, register_ain board_pin ain w1)
      end
  end.

(** *** Pause config helper *)

(** The body of the [try] of [_load_pause_from_file]. The inner
    [except AttributeError] is the [None] branch of the lookup. An
    attribute of [board] that is no pin makes the driver constructor
    raise inside [_init_dio]. *)
Definition load_pause_try (fs : files) (filename : string) (w : World)
  : res (option handle) * World :=
  match fs filename with
  | None => (Raise OSError, w)
  | Some content =>
      let line := strip (readline content) in
      if negb (truthy line) then (Ret None, w)
      else
        let parts := strip <$> split ","%char line in
        match parts with
        | [p0; p1] =>
            let pin_name := p0 in
            let direction := upper p1 in
            match board_getattr pin_name with
            | None => (Ret None, w)
            | Some OtherObj => (Raise TypeError, w)
            | Some (PinObj pin_obj) =>
                let '(dio, w1) := _init_dio None pin_obj w in
                if String.eqb direction "IN" then
                  let w2 := set_direction dio INPUT w1 in
                  let w3 := set_pull dio (Some UP) w2 in
                  (Ret (Some dio), w3)
                else if String.eqb direction "OUT" then
                  (Ret (Some dio), set_direction dio OUTPUT w1)
                else (Ret None, w1)
            end
        | _ => (Ret None, w)
        end
  end.

Definition _load_pause_from_file (fs : files) (filename : string) (w : World)
  : res (option handle) * World :=
  match load_pause_try fs filename w with
  | (Ret r, w') => (Ret r, w')
  | (Raise OSError, w') => (Ret None, w')
  | (Raise e, w') => if is_Exception e then (Ret None, w') else (Raise e, w')
  end.

(** *** The object *)

Record PixelKit : Type := {
  pause : option handle;
  button_A : handle;
  button_B : handle;
  button_reset : handle;
  joystick_up : handle;
  joystick_down : handle;
  joystick_left : handle;
  joystick_right : handle;
  joystick_click : handle;
  dial : handle;
  microphone : handle;
  dial_value : Z;
  microphone_value : Z;
  is_pressing_up : bool;
  is_pressing_down : bool;
  is_pressing_left : bool;
  is_pressing_right : bool;
  is_pressing_click : bool;
  is_pressing_a : bool;
  is_pressing_b : bool
}.

(** The keyword arguments of the constructor. *)
Record Args : Type := {
  arg_pause : option handle;
  arg_button_A : option handle;
  arg_button_B : option handle;
  arg_button_reset : option handle;
  arg_joystick_up : option handle;
  arg_joystick_down : option handle;
  arg_joystick_left : option handle;
  arg_joystick_right : option handle;
  arg_joystick_click : option handle;
  arg_dial : option handle;
  arg_microphone : option handle;
  arg_pause_config_file : string
}.

Definition default_args : Args :=
  {| arg_pause := None; arg_button_A := None; arg_button_B := None;
     arg_button_reset := None; arg_joystick_up := None;
     arg_joystick_down := None; arg_joystick_left := None;
     arg_joystick_right := None; arg_joystick_click := None;
     arg_dial := None; arg_microphone := None;
     arg_pause_config_file := "pausebutton_pin_config.txt" |}.

(** [PixelKit.__init__]. The strip on [board.D4] and its frame buffer
    are driver objects outside the two registries. *)
Definition __init__ (fs : files) (hw : Hardware) (a : Args) (w : World)
  : res PixelKit * World :=
  let '(rp, w) :=
    match arg_pause a with
    | Some h => (Ret (Some h), w)
    | None => _load_pause_from_file fs (arg_pause_config_file a) w
    end in
  match rp with
  | Raise e => (Raise e, w)
  | Ret pause_ =>
      let '(bA, w) := _init_dio (arg_button_A a) D18 w in
      let '(bB, w) := _init_dio (arg_button_B a) D23 w in
      let '(bR, w) := _init_dio (arg_button_reset a) D5 w in
      let '(jU, w) := _init_dio (arg_joystick_up a) D35 w in
      let '(jD, w) := _init_dio (arg_joystick_down a) D34 w in
      let '(jL, w) := _init_dio (arg_joystick_left a) D26 w in
      let '(jR, w) := _init_dio (arg_joystick_right a) D25 w in
      let '(jC, w) := _init_dio (arg_joystick_click a) D27 w in
      let '(di, w) := _init_ain (arg_dial a) VP w in
      let '(mi, w) := _init_ain (arg_microphone a) VN w in
      (Ret {| pause := pause_;
              button_A := bA; button_B := bB; button_reset := bR;
              joystick_up := jU; joystick_down := jD; joystick_left := jL;
              joystick_right := jR; joystick_click := jC;
              dial := di; microphone := mi;
              dial_value := avalue hw di;
              microphone_value := avalue hw mi;
              is_pressing_up := false; is_pressing_down := false;
              is_pressing_left := false; is_pressing_right := false;
              is_pressing_click := false; is_pressing_a := false;
              is_pressing_b := false |}, w)
  end.

End WithBoard.

(** *** Input scanning *)

(** The hooks a subclass overrides. *)
Inductive Hook : Type :=
| on_joystick_up | on_joystick_down | on_joystick_left
| on_joystick_right | on_joystick_click
| on_button_a | on_button_b
| on_dial | on_microphone.

(** What a poll does towards the outside, in program order:
    [dio.value], [ain.value], a call of a hook with its arguments,
    [neopixel_instance.fill(c)] and [neopixel_instance.show()]. *)
Inductive Action : Type :=
| ReadDigital (h : handle)
| ReadAnalog (h : handle)
| Call (f : Hook) (args : list Z)
| StripFill (c : Z * Z * Z)
| StripShow.

(** A method of the object: the state goes in and out, the actions are
    collected, and the result is a value or a raised exception. *)
Definition M (A : Type) : Type := PixelKit -> res A * PixelKit * list Action.

Definition ret {A} (a : A) : M A := fun k => (Ret a, k, []).

Definition raise {A} (e : exn) : M A := fun k => (Raise e, k, []).

Definition bind {A B} (m : M A) (f : A -> M B) : M B :=
  fun k =>
    match m k with
    | (Ret a, k1, t1) =>
        let '(r, k2, t2) := f a k1 in (r, k2, t1 ++ t2)
    | (Raise e, k1, t1) => (Raise e, k1, t1)
    end.

Notation "x <- m ;; f" := (bind m (fun x => f))
  (at level 100, m at next level, right associativity).
Notation "m ;;; f" := (bind m (fun _ => f))
  (at level 100, right associativity).

Definition emit (a : Action) : M unit := fun k => (Ret tt, k, [a]).
Definition get : M PixelKit := fun k => (Ret k, k, []).
Definition put (k : PixelKit) : M unit := fun _ => (Ret tt, k, []).

(** [dio.value] and [ain.value] *)
Definition digital_value (hw : Hardware) (h : handle) : M bool :=
  emit (ReadDigital h) ;;; ret (dvalue hw h).
Definition analog_value (hw : Hardware) (h : handle) : M Z :=
  emit (ReadAnalog h) ;;; ret (avalue hw h).

(** Field updates, one per attribute the pollers assign. *)
Definition with_flags (u d l r c a b : bool) (k : PixelKit) : PixelKit :=
  {| pause := pause k; button_A := button_A k; button_B := button_B k;
     button_reset := button_reset k; joystick_up := joystick_up k;
     joystick_down := joystick_down k; joystick_left := joystick_left k;
     joystick_right := joystick_right k; joystick_click := joystick_click k;
     dial := dial k; microphone := microphone k;
     dial_value := dial_value k; microphone_value := microphone_value k;
     is_pressing_up := u; is_pressing_down := d; is_pressing_left := l;
     is_pressing_right := r; is_pressing_click := c;
     is_pressing_a := a; is_pressing_b := b |}.

Definition with_samples (dv mv : Z) (k : PixelKit) : PixelKit :=
  {| pause := pause k; button_A := button_A k; button_B := button_B k;
     button_reset := button_reset k; joystick_up := joystick_up k;
     joystick_down := joystick_down k; joystick_left := joystick_left k;
     joystick_right := joystick_right k; joystick_click := joystick_click k;
     dial := dial k; microphone := microphone k;
     dial_value := dv; microphone_value := mv;
     is_pressing_up := is_pressing_up k; is_pressing_down := is_pressing_down k;
     is_pressing_left := is_pressing_left k; is_pressing_right := is_pressing_right k;
     is_pressing_click := is_pressing_click k;
     is_pressing_a := is_pressing_a k; is_pressing_b := is_pressing_b k |}.


(** The attributes whose name starts with [is_pressing_]. *)
Definition flag (attr : string) (k : PixelKit) : option bool :=
  if String.eqb attr "is_pressing_up" then Some (is_pressing_up k)
  else if String.eqb attr "is_pressing_down" then Some (is_pressing_down k)
  else if String.eqb attr "is_pressing_left" then Some (is_pressing_left k)
  else if String.eqb attr "is_pressing_right" then Some (is_pressing_right k)
  else if String.eqb attr "is_pressing_click" then Some (is_pressing_click k)
  else if String.eqb attr "is_pressing_a" then Some (is_pressing_a k)
  else if String.eqb attr "is_pressing_b" then Some (is_pressing_b k)
  else None.

Definition set_flag (attr : string) (v : bool) (k : PixelKit) : PixelKit :=
  let u := is_pressing_up k in let d := is_pressing_down k in
  let l := is_pressing_left k in let r := is_pressing_right k in
  let c := is_pressing_click k in
  let a := is_pressing_a k in let b := is_pressing_b k in
  if String.eqb attr "is_pressing_up" then with_flags v d l r c a b k
  else if String.eqb attr "is_pressing_down" then with_flags u v l r c a b k
  else if String.eqb attr "is_pressing_left" then with_flags u d v r c a b k
  else if String.eqb attr "is_pressing_right" then with_flags u d l v c a b k
  else if String.eqb attr "is_pressing_click" then with_flags u d l r v a b k
  else if String.eqb attr "is_pressing_a" then with_flags u d l r c v b k
  else if String.eqb attr "is_pressing_b" then with_flags u d l r c a v k
  else k.

(** The methods whose name starts with [on_joystick_] or [on_button_]. *)
Definition method (attr : string) : option Hook :=
  if String.eqb attr "on_joystick_up" then Some on_joystick_up
  else if String.eqb attr "on_joystick_down" then Some on_joystick_down
  else if String.eqb attr "on_joystick_left" then Some on_joystick_left
  else if String.eqb attr "on_joystick_right" then Some on_joystick_right
  else if String.eqb attr "on_joystick_click" then Some on_joystick_click
  else if String.eqb attr "on_button_a" then Some on_button_a
  else if String.eqb attr "on_button_b" then Some on_button_b
  else None.

(** [getattr(self, attr)] for a flag and for a method, [setattr] for a
    flag that exists. *)
Definition getattr_flag (attr : string) : M bool :=
  k <- get ;;
  match flag attr k with
  | Some v => ret v
  | None => raise (AttributeError attr)
  end.

Definition getattr_method (attr : string) : M Hook :=
  match method attr with
  | Some f => ret f
  | None => raise (AttributeError attr)
  end.

Definition setattr_flag (attr : string) (v : bool) : M unit :=
  k <- get ;; put (set_flag attr v k).

Definition _check_digital (hw : Hardware) (dio : handle) (name : string)
    (is_joystick : bool) : M unit :=
  let state_attr := "is_pressing_" +:+ name in
  event_method <-
    getattr_method ("on_" +:+ (if is_joystick then "joystick_" else "button_") +:+ name) ;;
  pressing <- getattr_flag state_attr ;;
  v <- digital_value hw dio ;;
  if negb v && negb pressing then
    setattr_flag state_attr true ;;;
    emit (Call event_method [])
  else
    v' <- digital_value hw dio ;;
    if v' && pressing then setattr_flag state_attr false
    else ret tt.

Definition _check_joystick (hw : Hardware) : M unit :=
  k <- get ;; _check_digital hw (joystick_up k) "up" true ;;;
  k <- get ;; _check_digital hw (joystick_down k) "down" true ;;;
  k <- get ;; _check_digital hw (joystick_left k) "left" true ;;;
  k <- get ;; _check_digital hw (joystick_right k) "right" true ;;;
  k <- get ;; _check_digital hw (joystick_click k) "click" true.

Definition _check_buttons (hw : Hardware) : M unit :=
  k <- get ;; _check_digital hw (button_A k) "a" false ;;;
  k <- get ;; _check_digital hw (button_B k) "b" false.

Definition _check_dial (hw : Hardware) : M unit :=
  k <- get ;;
  new_value <- analog_value hw (dial k) ;;
  k <- get ;;
  if negb (new_value =? dial_value k)%Z then
    put (with_samples new_value (microphone_value k) k) ;;;
    emit (Call on_dial [new_value])
  else ret tt.

Definition _check_microphone (hw : Hardware) : M unit :=
  k <- get ;;
  new_value <- analog_value hw (microphone k) ;;
  k <- get ;;
  if negb (new_value =? microphone_value k)%Z then
    put (with_samples (dial_value k) new_value k) ;;;
    emit (Call on_microphone [new_value])
  else ret tt.

(** *** Pause behavior *)

Definition _update_pause (hw : Hardware) : M unit :=
  k <- get ;;
  match pause k with
  | None => ret tt
  | Some p =>
      v <- digital_value hw p ;;
      if negb v then
        emit (StripFill (0, 0, 0)%Z) ;;;
        emit StripShow ;;;
        raise SystemExit
      else ret tt
  end.

Definition check_controls (hw : Hardware) : M unit :=
  _check_joystick hw ;;;
  _check_buttons hw ;;;
  _check_dial hw ;;;
  _check_microphone hw ;;;
  _update_pause hw.

(** The call sites of [_check_digital]: name and [is_joystick], and the
    handle each passes. *)
Definition digital_inputs : list (string * bool) :=
  [("up", true); ("down", true); ("left", true); ("right", true);
   ("click", true); ("a", false); ("b", false)].


End PixelKit.

(** ** class PauseButton *)

Module PauseButton.
Import Py Hw.

(** The strip object the caller passes as [leds]; an object that is
    there counts as true in [if self.leds]. *)
Definition leds_obj : Type := nat.

Record PauseButton : Type := {
  leds : option leds_obj;
  paused : bool;
  button : option handle
}.

(** What [update] can do towards the outside: [button.value] and the
    methods of the strip, [fill(c)] and [show()]. *)
Inductive Action : Type :=
| ReadButton (h : handle)
| LedsFill (l : leds_obj) (c : Z * Z * Z)
| LedsShow (l : leds_obj).

Section WithBoard.
Context {board : Board}.

(** The [try] block of [_load_from_file]: the two fields of the line. *)
Definition read_fields (fs : files) (filename : string) : res (string * string) :=
  match fs filename with
  | None => Raise OSError
  | Some content =>
      let line := strip (readline content) in
      if negb (truthy line) then Raise (ValueError "Empty config file")
      else
        match strip <$> split ","%char line with
        | [pin_name; direction] => Ret (pin_name, direction)
        | _ => Raise (ValueError "unpack")
        end
  end.

(** Lines 25 to 40 of [_load_from_file]: resolve the name, build the
    object without any registry, apply the direction. *)
Definition configure (pin_name direction : string) (w : World) : res handle * World :=
  match board_getattr pin_name with
  | None => (Raise (AttributeError pin_name), w)
  | Some OtherObj => (Raise TypeError, w)
  | Some (PinObj pin) =>
      let '(dio, w1) := new_dio pin w in
      if String.eqb (upper direction) "IN" then
        let w2 := set_direction dio INPUT w1 in
        (Ret dio, set_pull dio (Some UP) w2)
      else if String.eqb (upper direction) "OUT" then
        (Ret dio, set_direction dio OUTPUT w1)
      else (Raise (ValueError "Invalid direction in config"), w1)
  end.

Definition _load_from_file (fs : files) (filename : string)
    (default_pin default_dir : string) (w : World) : res handle * World :=
  let fields :=
    match read_fields fs filename with
    | Ret pd => Ret pd
    | Raise e => if is_Exception e then Ret (default_pin, default_dir) else Raise e
    end in
  match fields with
  | Raise e => (Raise e, w)
  | Ret (pin_name, direction) => configure pin_name direction w
  end.

(** [PauseButton.__init__]; [if config_file] holds for a name that is
    given and not empty. *)
Definition __init__ (fs : files) (button_ : option handle) (leds_ : option leds_obj)
    (config_file : option string) (w : World) : res PauseButton * World :=
  match config_file with
  | Some filename =>
      if truthy filename then
        match _load_from_file fs filename "IO15" "IN" w with
        | (Ret dio, w') =>
            (Ret {| leds := leds_; paused := false; button := Some dio |}, w')
        | (Raise e, w') => (Raise e, w')
        end
      else (Ret {| leds := leds_; paused := false; button := button_ |}, w)
  | None => (Ret {| leds := leds_; paused := false; button := button_ |}, w)
  end.

End WithBoard.

(** [PauseButton.update]: the object is not assigned to, so the result
    is the outcome and the actions. *)
Definition update (hw : Hardware) (self : PauseButton) : res unit * list Action :=
  match button self with
  | None => (Ret tt, [])
  | Some b =>
      if negb (dvalue hw b) then
        match leds self with
        | Some l => (Raise SystemExit, [ReadButton b; LedsFill l (0, 0, 0)%Z])
        | None => (Raise SystemExit, [ReadButton b])
        end
      else (Ret tt, [ReadButton b])
  end.

End PauseButton.

(** ** A board and files to run the code on *)

Module Sample.
Import Py Hw.

(** A board whose pins carry their GPIO number; [IO15] and [D15] name
    one pin, [board_id] is an attribute that is no pin. *)
#[global] Instance board : Board := {|
  D4 := 4%N; D5 := 5%N; D18 := 18%N; D23 := 23%N;
  D25 := 25%N; D26 := 26%N; D27 := 27%N; D34 := 34%N; D35 := 35%N;
  VP := 36%N; VN := 39%N;
  board_getattr name :=
    if String.eqb name "D4" then Some (PinObj 4%N)
    else if String.eqb name "D5" then Some (PinObj 5%N)
    else if String.eqb name "D15" then Some (PinObj 15%N)
    else if String.eqb name "IO15" then Some (PinObj 15%N)
    else if String.eqb name "D18" then Some (PinObj 18%N)
    else if String.eqb name "D23" then Some (PinObj 23%N)
    else if String.eqb name "board_id" then Some OtherObj
    else None
|}.

(** One file with the given text under the default name. *)
Definition one_file (text : string) : files :=
  fun name => if String.eqb name "pausebutton_pin_config.txt" then Some text else None.

Definition no_file : files := fun _ => None.

(** The default name of the config file. *)
Definition config_name : string := "pausebutton_pin_config.txt".

(** Every digital pin inactive (reads [True]), every sample [0]. *)
Definition idle : Hardware := {| dvalue := fun _ => true; avalue := fun _ => 0%Z |}.

(** One digital handle held active, every other inactive. *)
Definition pressed (h : handle) : Hardware :=
  {| dvalue := fun h0 => negb (Nat.eqb h0 h); avalue := fun _ => 0%Z |}.

(** The registries and the heap after one [PixelKit()] on a board without
    config file. *)
Definition after_first_kit : World :=
  snd (PixelKit.__init__ no_file idle PixelKit.default_args empty_world).

(** An object whose pause handle is the digital object 0. *)
Definition kit : PixelKit.PixelKit :=
  {| PixelKit.pause := Some 0;
     PixelKit.button_A := 1; PixelKit.button_B := 2; PixelKit.button_reset := 3;
     PixelKit.joystick_up := 4; PixelKit.joystick_down := 5;
     PixelKit.joystick_left := 6; PixelKit.joystick_right := 7;
     PixelKit.joystick_click := 8;
     PixelKit.dial := 0; PixelKit.microphone := 1;
     PixelKit.dial_value := 0; PixelKit.microphone_value := 0;
     PixelKit.is_pressing_up := false; PixelKit.is_pressing_down := false;
     PixelKit.is_pressing_left := false; PixelKit.is_pressing_right := false;
     PixelKit.is_pressing_click := false; PixelKit.is_pressing_a := false;
     PixelKit.is_pressing_b := false |}.

(** A [PauseButton] on the digital object 0, with and without leds. *)
Definition button_with_leds : PauseButton.PauseButton :=
  {| PauseButton.leds := Some 0; PauseButton.paused := false;
     PauseButton.button := Some 0 |}.

Definition button_without_leds : PauseButton.PauseButton :=
  {| PauseButton.leds := None; PauseButton.paused := false;
     PauseButton.button := Some 0 |}.

End Sample.

(** ** Vocabulary of the statements *)

Module Obs.
Import Py Hw PixelKit.

(** The fields of the first line, as both loaders compute them. *)
Definition config_fields (content : string) : list string :=
  strip <$> split ","%char (strip (readline content)).

(** The second field names a direction. *)
Definition names_direction (field : string) : bool :=
  String.eqb (upper field) "IN" || String.eqb (upper field) "OUT".

(** What a config file amounts to, in the words of the specification:
    the file is missing, its first line is empty, the line has not two
    fields, the first field names nothing on the board (or something
    that is no pin), the second field names no direction; or the line is
    well formed and gives a pin and a direction. *)
Inductive config : Type :=
| MissingFile
| EmptyLine
| WrongFieldCount
| UnknownPin (name : string)
| NotAPin (name : string)
| InvalidDirection (p : pin) (field : string)
| WellFormed (p : pin) (d : Direction).

Definition classify {board : Board} (fs : files) (filename : string) : config :=
  match fs filename with
  | None => MissingFile
  | Some content =>
      if negb (truthy (strip (readline content))) then EmptyLine
      else
        match config_fields content with
        | [name; field] =>
            match board_getattr name with
            | None => UnknownPin name
            | Some OtherObj => NotAPin name
            | Some (PinObj p) =>
                if String.eqb (upper field) "IN" then WellFormed p INPUT
                else if String.eqb (upper field) "OUT" then WellFormed p OUTPUT
                else InvalidDirection p field
            end
        | _ => WrongFieldCount
        end
  end.

Definition well_formed (c : config) : bool :=
  match c with WellFormed _ _ => true | _ => false end.

(** A snapshot with the level of one digital handle, or the sample of
    one analog handle, replaced. *)
Definition with_level (h : handle) (v : bool) (hw : Hardware) : Hardware :=
  {| dvalue := fun h' => if Nat.eqb h' h then v else dvalue hw h';
     avalue := avalue hw |}.

Definition with_sample (h : handle) (v : Z) (hw : Hardware) : Hardware :=
  {| dvalue := dvalue hw;
     avalue := fun h' => if Nat.eqb h' h then v else avalue hw h' |}.

(** Calling a method once per snapshot, until one call raises; the
    actions of each call and the state after the last one. *)
Fixpoint per_step (step : Hardware -> M unit) (hws : list Hardware) (k : PixelKit)
  : list (list Action) * PixelKit :=
  match hws with
  | [] => ([], k)
  | hw :: rest =>
      match step hw k with
      | (Ret _, k', t) => let '(ts, k'') := per_step step rest k' in (t :: ts, k'')
      | (Raise _, k', t) => ([t], k')
      end
  end.

(** The hooks a trace calls, in order. *)
Definition hooks_called (t : list Action) : list Hook :=
  omap (fun a => match a with Call f _ => Some f | _ => None end) t.

(** The order of the scan as the specification lists it. *)
Definition scan_order : list Hook :=
  [on_joystick_up; on_joystick_down; on_joystick_left; on_joystick_right;
   on_joystick_click; on_button_a; on_button_b; on_dial; on_microphone].

(** What scanning one digital input leaves in the trace: a read and the
    press hook, or two reads and no hook. *)
Definition digital_segment (hw : Hardware) (dio : handle) (pressing : bool) (f : Hook)
  : list Action :=
  if negb (dvalue hw dio) && negb pressing
  then [ReadDigital dio; Call f []]
  else [ReadDigital dio; ReadDigital dio].

Definition analog_segment (hw : Hardware) (ain : handle) (stored : Z) (f : Hook)
  : list Action :=
  if negb (avalue hw ain =? stored)%Z
  then [ReadAnalog ain; Call f [avalue hw ain]]
  else [ReadAnalog ain].

Definition pause_segment (hw : Hardware) (p : option handle) : list Action :=
  match p with
  | None => []
  | Some h =>
      if negb (dvalue hw h)
      then [ReadDigital h; StripFill (0, 0, 0)%Z; StripShow]
      else [ReadDigital h]
  end.

(** One poll cycle written as the specification orders it: joystick up,
    down, left, right, click, button A, button B, dial, microphone,
    pause check. *)
Definition scan_order_trace (hw : Hardware) (k : PixelKit) : list Action :=
  digital_segment hw (joystick_up k) (is_pressing_up k) on_joystick_up
  ++ digital_segment hw (joystick_down k) (is_pressing_down k) on_joystick_down
  ++ digital_segment hw (joystick_left k) (is_pressing_left k) on_joystick_left
  ++ digital_segment hw (joystick_right k) (is_pressing_right k) on_joystick_right
  ++ digital_segment hw (joystick_click k) (is_pressing_click k) on_joystick_click
  ++ digital_segment hw (button_A k) (is_pressing_a k) on_button_a
  ++ digital_segment hw (button_B k) (is_pressing_b k) on_button_b
  ++ analog_segment hw (dial k) (dial_value k) on_dial
  ++ analog_segment hw (microphone k) (microphone_value k) on_microphone
  ++ pause_segment hw (pause k).

(** How a poll cycle ends: it returns, or the pause check exits. *)
Definition pause_result (hw : Hardware) (p : option handle) : res unit :=
  match p with
  | None => Ret tt
  | Some h => if negb (dvalue hw h) then Raise SystemExit else Ret tt
  end.

(** The object after a poll cycle: every flag follows the level just
    read, both stored samples are the samples just read. *)
Definition after_poll (hw : Hardware) (k : PixelKit) : PixelKit :=
  with_samples (avalue hw (dial k)) (avalue hw (microphone k))
    (with_flags
       (negb (dvalue hw (joystick_up k))) (negb (dvalue hw (joystick_down k)))
       (negb (dvalue hw (joystick_left k))) (negb (dvalue hw (joystick_right k)))
       (negb (dvalue hw (joystick_click k)))
       (negb (dvalue hw (button_A k))) (negb (dvalue hw (button_B k))) k).


(** A request to one of the two registries. *)
Inductive acquire : Type :=
| AcquireDigital (instance : option handle) (p : pin)
| AcquireAnalog (instance : option handle) (p : pin).

Definition run_acquire (w : World) (a : acquire) : World :=
  match a with
  | AcquireDigital i p => snd (_init_dio i p w)
  | AcquireAnalog i p => snd (_init_ain i p w)
  end.

Definition run_acquires (l : list acquire) (w : World) : World :=
  foldl run_acquire w l.

(** In a process that binds pins through the registries only, a pin is
    bound exactly when it has its entry. *)
Definition bound_once (w : World) : Prop :=
  forall q,
    times q (dio_bound w) = match _dio_registry w !! q with Some _ => 1 | None => 0 end
    /\ times q (ain_bound w) = match _ain_registry w !! q with Some _ => 1 | None => 0 end.

End Obs.

(** ** Vocabulary of the further statements *)

Module More.
Import Py Hw PixelKit Obs.


(** The samples of a run that differ from the sample before them. *)
Fixpoint changes (stored : Z) (samples : list Z) : list Z :=
  match samples with
  | [] => []
  | v :: rest =>
      if (v =? stored)%Z then changes stored rest else v :: changes v rest
  end.


(** The calls of hooks in a trace, with their arguments. *)
Definition is_call (a : Action) : bool :=
  match a with Call _ _ => true | _ => false end.

Definition calls (t : list Action) : list Action := List.filter is_call t.

(** The wiring of an object: its handles. *)
Definition wiring (k : PixelKit)
  : option handle * list handle * list handle :=
  (pause k,
   [button_A k; button_B k; button_reset k; joystick_up k; joystick_down k;
    joystick_left k; joystick_right k; joystick_click k],
   [dial k; microphone k]).

(** Every entry of a registry is a live object bound to the pin of the
    entry. *)
Definition registry_exact (w : World) : Prop :=
  (forall p h, _dio_registry w !! p = Some h ->
     exists o, dio_heap w !! h = Some o /\ dio_pin o = p)
  /\ (forall p h, _ain_registry w !! p = Some h ->
       exists o, ain_heap w !! h = Some o /\ ain_pin o = p).

(** A later state of the process: entries and objects are kept, objects
    may have been reconfigured but not rebound. *)
Definition grows (w w' : World) : Prop :=
  (forall p h, _dio_registry w !! p = Some h -> _dio_registry w' !! p = Some h)
  /\ (forall p h, _ain_registry w !! p = Some h -> _ain_registry w' !! p = Some h)
  /\ (forall h o, dio_heap w !! h = Some o ->
       exists o', dio_heap w' !! h = Some o' /\ dio_pin o' = dio_pin o)
  /\ (forall h o, ain_heap w !! h = Some o -> ain_heap w' !! h = Some o).

(** A later state in which nothing that was there has been touched:
    every entry and every object is as it was. *)
Definition extends (w w' : World) : Prop :=
  (forall p h, _dio_registry w !! p = Some h -> _dio_registry w' !! p = Some h)
  /\ (forall p h, _ain_registry w !! p = Some h -> _ain_registry w' !! p = Some h)
  /\ (forall h o, dio_heap w !! h = Some o -> dio_heap w' !! h = Some o)
  /\ (forall h o, ain_heap w !! h = Some o -> ain_heap w' !! h = Some o).

(** The handle a request returns, and the handles a run of requests
    returns. *)
Definition acquire_result (w : World) (a : acquire) : handle :=
  match a with
  | AcquireDigital i p => fst (_init_dio i p w)
  | AcquireAnalog i p => fst (_init_ain i p w)
  end.

Fixpoint acquire_results (l : list acquire) (w : World) : list handle :=
  match l with
  | [] => []
  | a :: l' => acquire_result w a :: acquire_results l' (run_acquire w a)
  end.

(** The ten input handles of an object, in the order the constructor
    acquires them. *)
Definition handles_of (k : PixelKit) : list handle :=
  [button_A k; button_B k; button_reset k; joystick_up k; joystick_down k;
   joystick_left k; joystick_right k; joystick_click k; dial k; microphone k].

(** The line feed as a text. *)
Definition LF : string := String "010"%char EmptyString.

(** The state with one more digital object, nothing else changed. *)
Definition alloc_dio (o : DigitalInOut) (w : World) : World :=
  {| dio_heap := dio_heap w ++ [o];
     ain_heap := ain_heap w;
     _dio_registry := _dio_registry w;
     _ain_registry := _ain_registry w |}.

(** The calls to the strip in a trace. *)
Definition is_strip (a : Action) : bool :=
  match a with StripFill _ | StripShow => true | _ => false end.

(** The pause handle, if there is one, reads inactive. *)
Definition reads_idle (p : option handle) (hw : Hardware) : bool :=
  match p with Some h => dvalue hw h | None => true end.

(** The snapshots of a run up to the first one in which the pause handle
    reads active. *)
Fixpoint idle_prefix (p : option handle) (hws : list Hardware) : list Hardware :=
  match hws with
  | [] => []
  | hw :: rest => if reads_idle p hw then hw :: idle_prefix p rest else []
  end.

(** A text without line feed. *)
Fixpoint one_line (s : string) : bool :=
  match s with
  | EmptyString => true
  | String c s' => negb (Ascii.eqb c "010"%char) && one_line s'
  end.

(** A text of white space only. *)
Fixpoint blank (s : string) : bool :=
  match s with
  | EmptyString => true
  | String c s' => isspace c && blank s'
  end.

Section WithBoard.
Context {board : Board}.

(** The requests to the registries the constructor makes after the
    pause attribute is settled, in its order. *)
Definition init_acquires (a : Args) : list acquire :=
  [AcquireDigital (arg_button_A a) D18;
   AcquireDigital (arg_button_B a) D23;
   AcquireDigital (arg_button_reset a) D5;
   AcquireDigital (arg_joystick_up a) D35;
   AcquireDigital (arg_joystick_down a) D34;
   AcquireDigital (arg_joystick_left a) D26;
   AcquireDigital (arg_joystick_right a) D25;
   AcquireDigital (arg_joystick_click a) D27;
   AcquireAnalog (arg_dial a) VP;
   AcquireAnalog (arg_microphone a) VN].

(** The state in which the constructor makes them. *)
Definition after_pause (fs : files) (a : Args) (w : World) : World :=
  match arg_pause a with
  | Some _ => w
  | None => snd (_load_pause_from_file fs (arg_pause_config_file a) w)
  end.

(** Each digital input of an object with its argument and its board pin,
    and the same for the analog inputs. *)
Definition digital_wiring (a : Args) (k : PixelKit) : list (option handle * pin * handle) :=
  [(arg_button_A a, D18, button_A k);
   (arg_button_B a, D23, button_B k);
   (arg_button_reset a, D5, button_reset k);
   (arg_joystick_up a, D35, joystick_up k);
   (arg_joystick_down a, D34, joystick_down k);
   (arg_joystick_left a, D26, joystick_left k);
   (arg_joystick_right a, D25, joystick_right k);
   (arg_joystick_click a, D27, joystick_click k)].

Definition analog_wiring (a : Args) (k : PixelKit) : list (option handle * pin * handle) :=
  [(arg_dial a, VP, dial k); (arg_microphone a, VN, microphone k)].

(** The pause attribute the constructor settles on. *)
Definition pause_choice (fs : files) (a : Args) (w : World) : option handle :=
  match arg_pause a with
  | Some h => Some h
  | None =>
      match fst (_load_pause_from_file fs (arg_pause_config_file a) w) with
      | Ret r => r
      | Raise _ => None
      end
  end.

(** Constructing one [PixelKit] after another in one process; a
    constructor call that raises leaves the state it reached. *)
Definition construct (w : World) (c : files * Hardware * Args) : World :=
  snd (__init__ c.1.1 c.1.2 c.2 w).

Definition construct_all (cs : list (files * Hardware * Args)) (w : World) : World :=
  foldl construct w cs.

End WithBoard.

End More.

(** * Properties *)

Import Py Hw PixelKit Obs More.

(** ** The pin registries *)

Section Registry.

Lemma snoc_lookup {A} (l : list A) (x : A) : (l ++ [x]) !! length l = Some x.
Proof. induction l; cbn; auto. Qed.

Lemma snoc_insert {A} (l : list A) (x y : A) : <[length l := y]> (l ++ [x]) = l ++ [y].
Proof. induction l; cbn; [reflexivity | now f_equal]. Qed.

Lemma init_dio_hit (p : pin) (h : handle) (w : World) :
  _dio_registry w !! p = Some h -> _init_dio None p w = (h, w).
Proof. intros E. unfold _init_dio. now rewrite E. Qed.

Lemma init_dio_miss (p : pin) (w : World) :
  _dio_registry w !! p = None ->
  _init_dio None p w =
    (length (dio_heap w),
     {| dio_heap := dio_heap w ++ [{| dio_pin := p; direction := INPUT; pull := Some UP |}];
        ain_heap := ain_heap w;
        _dio_registry := <[p := length (dio_heap w)]> (_dio_registry w);
        _ain_registry := _ain_registry w |}).
Proof.
  intros E. unfold _init_dio. rewrite E.
  unfold new_dio, register_dio, set_pull, set_direction, update_dio. cbn.
  rewrite !snoc_lookup. cbn. rewrite !snoc_insert, snoc_lookup. cbn.
  now rewrite snoc_insert.
Qed.

Lemma init_ain_hit (p : pin) (h : handle) (w : World) :
  _ain_registry w !! p = Some h -> _init_ain None p w = (h, w).
Proof. intros E. unfold _init_ain. now rewrite E. Qed.

Lemma init_ain_miss (p : pin) (w : World) :
  _ain_registry w !! p = None ->
  _init_ain None p w =
    (length (ain_heap w),
     {| dio_heap := dio_heap w;
        ain_heap := ain_heap w ++ [{| ain_pin := p |}];
        _dio_registry := _dio_registry w;
        _ain_registry := <[p := length (ain_heap w)]> (_ain_registry w) |}).
Proof. intros E. unfold _init_ain. now rewrite E. Qed.

Lemma times_snoc (p q : pin) (l : list pin) :
  times p (l ++ [q]) = times p l + (if decide (q = p) then 1 else 0).
Proof.
  unfold times. rewrite filter_app, length_app. f_equal.
  rewrite filter_cons, filter_nil. now destruct (decide (q = p)).
Qed.

(** An entry of a registry is never replaced. *)
Lemma acquire_keeps_dio (a : acquire) (w : World) (p : pin) (h : handle) :
  _dio_registry w !! p = Some h -> _dio_registry (run_acquire w a) !! p = Some h.
Proof.
  intros E. destruct a as [[i|] q | [i|] q]; unfold run_acquire; try (cbn; assumption); try reflexivity.
  - destruct (_dio_registry w !! q) as [h'|] eqn:Eq.
    + now rewrite (init_dio_hit _ _ _ Eq).
    + rewrite (init_dio_miss _ _ Eq). cbn.
      rewrite lookup_insert_ne; [assumption | congruence].
  - destruct (_ain_registry w !! q) as [h'|] eqn:Eq.
    + now rewrite (init_ain_hit _ _ _ Eq).
    + now rewrite (init_ain_miss _ _ Eq).
Qed.

Lemma acquire_keeps_ain (a : acquire) (w : World) (p : pin) (h : handle) :
  _ain_registry w !! p = Some h -> _ain_registry (run_acquire w a) !! p = Some h.
Proof.
  intros E. destruct a as [[i|] q | [i|] q]; unfold run_acquire; try (cbn; assumption); try reflexivity.
  - destruct (_dio_registry w !! q) as [h'|] eqn:Eq.
    + now rewrite (init_dio_hit _ _ _ Eq).
    + now rewrite (init_dio_miss _ _ Eq).
  - destruct (_ain_registry w !! q) as [h'|] eqn:Eq.
    + now rewrite (init_ain_hit _ _ _ Eq).
    + rewrite (init_ain_miss _ _ Eq). cbn.
      rewrite lookup_insert_ne; [assumption | congruence].
Qed.

(** A pin that has its entry is not bound again. *)
Lemma acquire_no_rebind_dio (a : acquire) (w : World) (p : pin) (h : handle) :
  _dio_registry w !! p = Some h ->
  times p (dio_bound (run_acquire w a)) = times p (dio_bound w).
Proof.
  intros E. destruct a as [[i|] q | [i|] q]; unfold run_acquire; try (cbn; assumption); try reflexivity.
  - destruct (_dio_registry w !! q) as [h'|] eqn:Eq.
    + now rewrite (init_dio_hit _ _ _ Eq).
    + rewrite (init_dio_miss _ _ Eq). unfold dio_bound. cbn.
      rewrite fmap_app. cbn. rewrite times_snoc.
      destruct (decide (q = p)); [congruence | lia].
  - destruct (_ain_registry w !! q) as [h'|] eqn:Eq.
    + now rewrite (init_ain_hit _ _ _ Eq).
    + now rewrite (init_ain_miss _ _ Eq).
Qed.

Lemma acquire_no_rebind_ain (a : acquire) (w : World) (p : pin) (h : handle) :
  _ain_registry w !! p = Some h ->
  times p (ain_bound (run_acquire w a)) = times p (ain_bound w).
Proof.
  intros E. destruct a as [[i|] q | [i|] q]; unfold run_acquire; try (cbn; assumption); try reflexivity.
  - destruct (_dio_registry w !! q) as [h'|] eqn:Eq.
    + now rewrite (init_dio_hit _ _ _ Eq).
    + now rewrite (init_dio_miss _ _ Eq).
  - destruct (_ain_registry w !! q) as [h'|] eqn:Eq.
    + now rewrite (init_ain_hit _ _ _ Eq).
    + rewrite (init_ain_miss _ _ Eq). unfold ain_bound. cbn.
      rewrite fmap_app. cbn. rewrite times_snoc.
      destruct (decide (q = p)); [congruence | lia].
Qed.

Lemma acquires_keep_dio (l : list acquire) (w : World) (p : pin) (h : handle) :
  _dio_registry w !! p = Some h ->
  _dio_registry (run_acquires l w) !! p = Some h
  /\ times p (dio_bound (run_acquires l w)) = times p (dio_bound w).
Proof.
  revert w. induction l as [|a l IH]; intros w E; cbn; [auto|].
  destruct (IH (run_acquire w a) (acquire_keeps_dio a w p h E)) as [R T].
  split; [exact R|]. unfold run_acquires in T. rewrite T.
  eapply acquire_no_rebind_dio, E.
Qed.

Lemma acquires_keep_ain (l : list acquire) (w : World) (p : pin) (h : handle) :
  _ain_registry w !! p = Some h ->
  _ain_registry (run_acquires l w) !! p = Some h
  /\ times p (ain_bound (run_acquires l w)) = times p (ain_bound w).
Proof.
  revert w. induction l as [|a l IH]; intros w E; cbn; [auto|].
  destruct (IH (run_acquire w a) (acquire_keeps_ain a w p h E)) as [R T].
  split; [exact R|]. unfold run_acquires in T. rewrite T.
  eapply acquire_no_rebind_ain, E.
Qed.

(** After the first request the pin has its entry, and the request
    bound the pin at most once. *)
Lemma init_dio_first (p : pin) (w : World) :
  _dio_registry (snd (_init_dio None p w)) !! p = Some (fst (_init_dio None p w))
  /\ times p (dio_bound (snd (_init_dio None p w))) <= times p (dio_bound w) + 1.
Proof.
  destruct (_dio_registry w !! p) as [h|] eqn:E.
  - rewrite (init_dio_hit _ _ _ E). cbn. split; [exact E | lia].
  - rewrite (init_dio_miss _ _ E). cbn. split; [apply lookup_insert_eq|].
    unfold dio_bound. cbn. rewrite fmap_app. cbn. rewrite times_snoc.
    destruct (decide (p = p)); lia.
Qed.

Lemma init_ain_first (p : pin) (w : World) :
  _ain_registry (snd (_init_ain None p w)) !! p = Some (fst (_init_ain None p w))
  /\ times p (ain_bound (snd (_init_ain None p w))) <= times p (ain_bound w) + 1.
Proof.
  destruct (_ain_registry w !! p) as [h|] eqn:E.
  - rewrite (init_ain_hit _ _ _ E). cbn. split; [exact E | lia].
  - rewrite (init_ain_miss _ _ E). cbn. split; [apply lookup_insert_eq|].
    unfold ain_bound. cbn. rewrite fmap_app. cbn. rewrite times_snoc.
    destruct (decide (p = p)); lia.
Qed.

Lemma bound_once_empty : bound_once empty_world.
Proof. intros q. cbn. rewrite !lookup_empty. auto. Qed.

Lemma bound_once_acquire (a : acquire) (w : World) :
  bound_once w -> bound_once (run_acquire w a).
Proof.
  intros I q. destruct (I q) as [Id Ia].
  destruct a as [[i|] p | [i|] p]; unfold run_acquire; try (cbn; split; assumption).
  - destruct (_dio_registry w !! p) as [h'|] eqn:Ep.
    + now rewrite (init_dio_hit _ _ _ Ep).
    + rewrite (init_dio_miss _ _ Ep). unfold dio_bound, ain_bound in *. cbn.
      split; [|exact Ia].
      rewrite fmap_app. cbn. rewrite times_snoc, Id.
      destruct (decide (p = q)) as [->|N].
      * rewrite Ep, lookup_insert_eq. reflexivity.
      * rewrite lookup_insert_ne by exact N. lia.
  - destruct (_ain_registry w !! p) as [h'|] eqn:Ep.
    + now rewrite (init_ain_hit _ _ _ Ep).
    + rewrite (init_ain_miss _ _ Ep). unfold dio_bound, ain_bound in *. cbn.
      split; [exact Id|].
      rewrite fmap_app. cbn. rewrite times_snoc, Ia.
      destruct (decide (p = q)) as [->|N].
      * rewrite Ep, lookup_insert_eq. reflexivity.
      * rewrite lookup_insert_ne by exact N. lia.
Qed.

Lemma bound_once_acquires (l : list acquire) (w : World) :
  bound_once w -> bound_once (run_acquires l w).
Proof.
  revert w. induction l as [|a l IH]; intros w I; cbn; [exact I|].
  apply IH, bound_once_acquire, I.
Qed.

(** C3. Asking a registry for a pin twice, whatever is asked of the two
    registries in between, returns the same handle both times; the
    second request changes nothing and the requests in between do not
    bind the pin again, so the two requests together bind it at most
    once. This holds for the digital and for the analog registry. In a
    process that starts with empty registries, no sequence of requests
    binds any pin more than once in either driver. *)
Theorem registry_acquire_idempotent (p : pin) (others : list acquire) (w : World) :
  (let first := _init_dio None p w in
   let between := run_acquires others (snd first) in
   let second := _init_dio None p between in
   fst second = fst first
   /\ snd second = between
   /\ times p (dio_bound (snd second)) <= times p (dio_bound w) + 1)
  /\ (let first := _init_ain None p w in
      let between := run_acquires others (snd first) in
      let second := _init_ain None p between in
      fst second = fst first
      /\ snd second = between
      /\ times p (ain_bound (snd second)) <= times p (ain_bound w) + 1)
  /\ (forall (l : list acquire) (q : pin),
        times q (dio_bound (run_acquires l empty_world)) <= 1
        /\ times q (ain_bound (run_acquires l empty_world)) <= 1).
Proof.
  split; [|split].
  - cbn zeta. destruct (init_dio_first p w) as [R B].
    destruct (acquires_keep_dio others _ p _ R) as [R' T].
    rewrite (init_dio_hit _ _ _ R'). cbn [fst snd]. rewrite T. auto.
  - cbn zeta. destruct (init_ain_first p w) as [R B].
    destruct (acquires_keep_ain others _ p _ R) as [R' T].
    rewrite (init_ain_hit _ _ _ R'). cbn [fst snd]. rewrite T. auto.
  - intros l q.
    destruct (bound_once_acquires l empty_world bound_once_empty q) as [Hd Ha].
    rewrite Hd, Ha.
    destruct (_dio_registry _ !! q), (_ain_registry _ !! q); lia.
Qed.

End Registry.

(** ** One poll cycle *)

(** Splitting a statement about every call site into the seven sites. *)
Ltac each_input :=
  repeat match goal with
         | |- Forall _ (_ :: _) => constructor
         | |- Forall _ [] => constructor
         end.

Section Polling.

Lemma set_flag_same (attr : string) (b : bool) (k : PixelKit) :
  flag attr k = Some b -> set_flag attr b k = k.
Proof.
  destruct k. unfold flag, set_flag, with_flags. cbn.
  repeat (destruct (String.eqb attr _); [intros [= <-]; reflexivity|]).
  intros [=].
Qed.


(** What one call of [_check_digital] does, for a name the object has a
    flag and a hook for. *)
Lemma check_digital_run (hw : Hardware) (dio : handle) (name : string) (j : bool)
    (f : Hook) (pressing : bool) (k : PixelKit) :
  method ("on_" +:+ (if j then "joystick_" else "button_") +:+ name) = Some f ->
  flag ("is_pressing_" +:+ name) k = Some pressing ->
  _check_digital hw dio name j k =
    (Ret tt, set_flag ("is_pressing_" +:+ name) (negb (dvalue hw dio)) k,
     digital_segment hw dio pressing f).
Proof.
  intros Hm Hf.
  unfold _check_digital, getattr_method, getattr_flag, setattr_flag,
    digital_value, digital_segment, bind, get, put, emit, ret, raise.
  rewrite Hm. cbn. rewrite Hf. cbn.
  destruct (dvalue hw dio), pressing; cbn;
    try rewrite (set_flag_same _ _ _ Hf); reflexivity.
Qed.

Lemma with_samples_same (k : PixelKit) :
  with_samples (dial_value k) (microphone_value k) k = k.
Proof. now destruct k. Qed.

Lemma check_dial_run (hw : Hardware) (k : PixelKit) :
  _check_dial hw k =
    (Ret tt, with_samples (avalue hw (dial k)) (microphone_value k) k,
     analog_segment hw (dial k) (dial_value k) on_dial).
Proof.
  unfold _check_dial, analog_value, analog_segment, bind, get, put, emit, ret. cbn.
  destruct (Z.eqb_spec (avalue hw (dial k)) (dial_value k)) as [E|N]; cbn.
  - now rewrite E, with_samples_same.
  - reflexivity.
Qed.

Lemma check_microphone_run (hw : Hardware) (k : PixelKit) :
  _check_microphone hw k =
    (Ret tt, with_samples (dial_value k) (avalue hw (microphone k)) k,
     analog_segment hw (microphone k) (microphone_value k) on_microphone).
Proof.
  unfold _check_microphone, analog_value, analog_segment, bind, get, put, emit, ret. cbn.
  destruct (Z.eqb_spec (avalue hw (microphone k)) (microphone_value k)) as [E|N]; cbn.
  - now rewrite E, with_samples_same.
  - reflexivity.
Qed.

Lemma update_pause_run (hw : Hardware) (k : PixelKit) :
  _update_pause hw k = (pause_result hw (pause k), k, pause_segment hw (pause k)).
Proof.
  unfold _update_pause, digital_value, pause_result, pause_segment,
    bind, get, emit, ret, raise. cbn.
  destruct (pause k) as [p|]; [|reflexivity].
  cbn. now destruct (dvalue hw p).
Qed.

(** One rewriting step along the chain of calls of a poll cycle. *)
Ltac poll_step :=
  erewrite check_digital_run by reflexivity; cbv beta iota zeta.

Lemma check_joystick_run (hw : Hardware) (k : PixelKit) :
  _check_joystick hw k =
    (Ret tt,
     with_flags
       (negb (dvalue hw (joystick_up k))) (negb (dvalue hw (joystick_down k)))
       (negb (dvalue hw (joystick_left k))) (negb (dvalue hw (joystick_right k)))
       (negb (dvalue hw (joystick_click k)))
       (is_pressing_a k) (is_pressing_b k) k,
     digital_segment hw (joystick_up k) (is_pressing_up k) on_joystick_up
     ++ digital_segment hw (joystick_down k) (is_pressing_down k) on_joystick_down
     ++ digital_segment hw (joystick_left k) (is_pressing_left k) on_joystick_left
     ++ digital_segment hw (joystick_right k) (is_pressing_right k) on_joystick_right
     ++ digital_segment hw (joystick_click k) (is_pressing_click k) on_joystick_click).
Proof.
  unfold _check_joystick, bind, get. cbv beta iota zeta.
  do 5 poll_step. cbn [app]. reflexivity.
Qed.

Lemma check_buttons_run (hw : Hardware) (k : PixelKit) :
  _check_buttons hw k =
    (Ret tt,
     with_flags
       (is_pressing_up k) (is_pressing_down k) (is_pressing_left k)
       (is_pressing_right k) (is_pressing_click k)
       (negb (dvalue hw (button_A k))) (negb (dvalue hw (button_B k))) k,
     digital_segment hw (button_A k) (is_pressing_a k) on_button_a
     ++ digital_segment hw (button_B k) (is_pressing_b k) on_button_b).
Proof.
  unfold _check_buttons, bind, get. cbv beta iota zeta.
  do 2 poll_step. cbn [app]. reflexivity.
Qed.

(** The whole of [check_controls] in closed form. *)
Lemma check_controls_run (hw : Hardware) (k : PixelKit) :
  check_controls hw k =
    (pause_result hw (pause k), after_poll hw k, scan_order_trace hw k).
Proof.
  unfold check_controls, bind.
  rewrite check_joystick_run. cbv beta iota zeta.
  rewrite check_buttons_run. cbv beta iota zeta.
  rewrite check_dial_run. cbv beta iota zeta.
  rewrite check_microphone_run. cbv beta iota zeta.
  rewrite update_pause_run.
  unfold scan_order_trace, after_poll. cbn [pause button_A button_B joystick_up
    joystick_down joystick_left joystick_right joystick_click dial microphone
    dial_value microphone_value is_pressing_up is_pressing_down is_pressing_left
    is_pressing_right is_pressing_click is_pressing_a is_pressing_b
    with_flags with_samples].
  rewrite <- !app_assoc. reflexivity.
Qed.

Lemma dvalue_with_level (h : handle) (v : bool) (hw : Hardware) :
  dvalue (with_level h v hw) h = v.
Proof. cbn. now rewrite Nat.eqb_refl. Qed.

Lemma avalue_with_sample (h : handle) (v : Z) (hw : Hardware) :
  avalue (with_sample h v hw) h = v.
Proof. cbn. now rewrite Nat.eqb_refl. Qed.

(** C2. For each of the seven digital inputs, whatever handle it is read
    from and whatever the rest of the object and of the hardware is:
    starting with the flag of the input cleared (Released), the five raw
    levels active, active, active, inactive, active (active is [false])
    make the press hook of the input run at the first and at the fifth
    read and at no other; the read that sees the release calls nothing.
    The input ends Pressed. *)
Theorem press_hook_fires_on_first_and_fifth_read
    (hw1 hw2 hw3 hw4 hw5 : Hardware) (dio : handle) (k : PixelKit) :
  Forall (fun '((name, is_joystick) : string * bool) =>
    match method ("on_" +:+ (if is_joystick then "joystick_" else "button_") +:+ name) with
    | None => False
    | Some f =>
        per_step (fun hw => _check_digital hw dio name is_joystick)
          [with_level dio false hw1; with_level dio false hw2;
           with_level dio false hw3; with_level dio true hw4;
           with_level dio false hw5]
          (set_flag ("is_pressing_" +:+ name) false k)
        = ([[ReadDigital dio; Call f []];
            [ReadDigital dio; ReadDigital dio];
            [ReadDigital dio; ReadDigital dio];
            [ReadDigital dio; ReadDigital dio];
            [ReadDigital dio; Call f []]],
           set_flag ("is_pressing_" +:+ name) true k)
    end) digital_inputs.
Proof.
  unfold digital_inputs.
  each_input;
    cbn [method String.eqb Ascii.eqb Bool.eqb String.append per_step];
    repeat (erewrite check_digital_run by reflexivity; cbv beta iota zeta);
    unfold digital_segment; rewrite !dvalue_with_level; reflexivity.
Qed.

(** C6. With the stored dial value 10, the samples 10, 10, 12, 12, 9 call
    [on_dial] twice, with 12 and then with 9, and the microphone does the
    same with [on_microphone]. In general one call of [_check_dial] (of
    [_check_microphone]) reads the sample once, calls the hook with the
    new sample exactly when it differs from the stored value, and leaves
    the new sample stored. *)
Theorem analog_change_dispatch (hw hw1 hw2 hw3 hw4 hw5 : Hardware) (k : PixelKit) :
  per_step _check_dial
    [with_sample (dial k) 10 hw1; with_sample (dial k) 10 hw2;
     with_sample (dial k) 12 hw3; with_sample (dial k) 12 hw4;
     with_sample (dial k) 9 hw5]
    (with_samples 10 (microphone_value k) k)
  = ([[ReadAnalog (dial k)];
      [ReadAnalog (dial k)];
      [ReadAnalog (dial k); Call on_dial [12%Z]];
      [ReadAnalog (dial k)];
      [ReadAnalog (dial k); Call on_dial [9%Z]]],
     with_samples 9 (microphone_value k) k)
  /\ per_step _check_microphone
       [with_sample (microphone k) 10 hw1; with_sample (microphone k) 10 hw2;
        with_sample (microphone k) 12 hw3; with_sample (microphone k) 12 hw4;
        with_sample (microphone k) 9 hw5]
       (with_samples (dial_value k) 10 k)
     = ([[ReadAnalog (microphone k)];
         [ReadAnalog (microphone k)];
         [ReadAnalog (microphone k); Call on_microphone [12%Z]];
         [ReadAnalog (microphone k)];
         [ReadAnalog (microphone k); Call on_microphone [9%Z]]],
        with_samples (dial_value k) 9 k)
  /\ _check_dial hw k
     = (Ret tt,
        (if (avalue hw (dial k) =? dial_value k)%Z then k
         else with_samples (avalue hw (dial k)) (microphone_value k) k),
        ReadAnalog (dial k)
        :: (if (avalue hw (dial k) =? dial_value k)%Z then []
            else [Call on_dial [avalue hw (dial k)]]))
  /\ _check_microphone hw k
     = (Ret tt,
        (if (avalue hw (microphone k) =? microphone_value k)%Z then k
         else with_samples (dial_value k) (avalue hw (microphone k)) k),
        ReadAnalog (microphone k)
        :: (if (avalue hw (microphone k) =? microphone_value k)%Z then []
            else [Call on_microphone [avalue hw (microphone k)]]))
  /\ (In (Call on_dial [avalue hw (dial k)]) (snd (_check_dial hw k))
       <-> avalue hw (dial k) <> dial_value k)
  /\ (In (Call on_microphone [avalue hw (microphone k)]) (snd (_check_microphone hw k))
       <-> avalue hw (microphone k) <> microphone_value k)
  /\ dial_value (snd (fst (_check_dial hw k))) = avalue hw (dial k)
  /\ microphone_value (snd (fst (_check_microphone hw k))) = avalue hw (microphone k).
Proof.
  repeat split.
  - cbn [per_step]. repeat (rewrite check_dial_run; cbv beta iota zeta).
    cbn [dial dial_value microphone_value with_samples].
    unfold analog_segment. rewrite !avalue_with_sample. reflexivity.
  - cbn [per_step]. repeat (rewrite check_microphone_run; cbv beta iota zeta).
    cbn [microphone dial_value microphone_value with_samples].
    unfold analog_segment. rewrite !avalue_with_sample. reflexivity.
  - rewrite check_dial_run. unfold analog_segment.
    destruct (Z.eqb_spec (avalue hw (dial k)) (dial_value k)) as [E|N]; cbn.
    + now rewrite E, with_samples_same.
    + reflexivity.
  - rewrite check_microphone_run. unfold analog_segment.
    destruct (Z.eqb_spec (avalue hw (microphone k)) (microphone_value k)) as [E|N]; cbn.
    + now rewrite E, with_samples_same.
    + reflexivity.
  - rewrite check_dial_run. unfold analog_segment. cbn [snd].
    destruct (Z.eqb_spec (avalue hw (dial k)) (dial_value k)) as [E|N]; cbn.
    + intros [[=]|[]].
    + intros _. exact N.
  - rewrite check_dial_run. unfold analog_segment. cbn [snd].
    destruct (Z.eqb_spec (avalue hw (dial k)) (dial_value k)) as [E|N]; cbn.
    + intros N. now destruct N.
    + intros _. right. now left.
  - rewrite check_microphone_run. unfold analog_segment. cbn [snd].
    destruct (Z.eqb_spec (avalue hw (microphone k)) (microphone_value k)) as [E|N]; cbn.
    + intros [[=]|[]].
    + intros _. exact N.
  - rewrite check_microphone_run. unfold analog_segment. cbn [snd].
    destruct (Z.eqb_spec (avalue hw (microphone k)) (microphone_value k)) as [E|N]; cbn.
    + intros N. now destruct N.
    + intros _. right. now left.
  - now rewrite check_dial_run.
  - now rewrite check_microphone_run.
Qed.

Lemma hooks_called_app (t u : list Action) :
  hooks_called (t ++ u) = hooks_called t ++ hooks_called u.
Proof. apply omap_app. Qed.

Lemma hooks_called_digital (hw : Hardware) (dio : handle) (pressing : bool) (f : Hook) :
  hooks_called (digital_segment hw dio pressing f)
  = if negb (dvalue hw dio) && negb pressing then [f] else [].
Proof. unfold digital_segment. now destruct (negb (dvalue hw dio) && negb pressing). Qed.

Lemma hooks_called_analog (hw : Hardware) (ain : handle) (stored : Z) (f : Hook) :
  hooks_called (analog_segment hw ain stored f)
  = if negb (avalue hw ain =? stored)%Z then [f] else [].
Proof. unfold analog_segment. now destruct (negb (avalue hw ain =? stored)%Z). Qed.

Lemma hooks_called_pause (hw : Hardware) (p : option handle) :
  hooks_called (pause_segment hw p) = [].
Proof. destruct p as [h|]; [|reflexivity]. cbn. now destruct (dvalue hw h). Qed.

Lemma sublist_maybe {A} (b : bool) (x : A) (l1 l2 : list A) :
  sublist l1 l2 -> sublist ((if b then [x] else []) ++ l1) (x :: l2).
Proof. intros S. destruct b; cbn; now constructor. Qed.

(** C7. One poll cycle reads and calls in the order joystick up, down,
    left, right, click, button A, button B, dial, microphone, pause
    check: the actions of [check_controls] are the actions of the ten
    scans in that order, whatever the state and the hardware, and the
    hooks it calls are a selection, in that order, of the nine hooks. *)
Theorem scan_order_is_fixed (hw : Hardware) (k : PixelKit) :
  snd (check_controls hw k) = scan_order_trace hw k
  /\ sublist (hooks_called (snd (check_controls hw k))) scan_order.
Proof.
  rewrite check_controls_run. cbn [snd]. split; [reflexivity|].
  unfold scan_order_trace, scan_order.
  rewrite !hooks_called_app, !hooks_called_digital, !hooks_called_analog,
    hooks_called_pause.
  repeat apply sublist_maybe. constructor.
Qed.

End Polling.

(** ** The pause configuration *)

Section Loading.
Context {board : Board}.

Lemma registry_live_empty : registry_live empty_world.
Proof. intros p h. cbn. now rewrite lookup_empty. Qed.

Lemma registry_live_init_dio (i : option handle) (p : pin) (w : World) :
  registry_live w -> registry_live (snd (_init_dio i p w)).
Proof.
  intros L. destruct i as [h|]; [exact L|].
  destruct (_dio_registry w !! p) as [h|] eqn:E.
  - now rewrite (init_dio_hit _ _ _ E).
  - rewrite (init_dio_miss _ _ E). intros q h. cbn.
    rewrite length_app. cbn. destruct (decide (p = q)) as [->|N].
    + rewrite lookup_insert_eq. intros [= <-]. lia.
    + rewrite lookup_insert_ne by exact N. intros Hq. specialize (L q h Hq). lia.
Qed.

Lemma init_dio_live (p : pin) (w : World) :
  registry_live w -> fst (_init_dio None p w) < length (dio_heap (snd (_init_dio None p w))).
Proof.
  intros L. destruct (_dio_registry w !! p) as [h|] eqn:E.
  - rewrite (init_dio_hit _ _ _ E). cbn. eapply L, E.
  - rewrite (init_dio_miss _ _ E). cbn. rewrite length_app. cbn. lia.
Qed.

(** Assigning an attribute of a live object. *)
Lemma update_dio_lookup (f : DigitalInOut -> DigitalInOut) (h : handle) (w : World)
    (o : DigitalInOut) :
  dio_heap w !! h = Some o -> dio_heap (update_dio f h w) !! h = Some (f o).
Proof.
  intros E. unfold update_dio. cbn. rewrite E.
  apply list_lookup_insert_eq. now apply lookup_lt_Some in E.
Qed.

(** The loader of [PixelKit], case by case. *)
Lemma load_pause_cases (fs : files) (filename : string) (w : World) :
  _load_pause_from_file fs filename w =
    match classify fs filename with
    | WellFormed p INPUT =>
        let r := _init_dio None p w in
        (Ret (Some (fst r)),
         set_pull (fst r) (Some UP) (set_direction (fst r) INPUT (snd r)))
    | WellFormed p OUTPUT =>
        let r := _init_dio None p w in
        (Ret (Some (fst r)), set_direction (fst r) OUTPUT (snd r))
    | InvalidDirection p _ => (Ret None, snd (_init_dio None p w))
    | _ => (Ret None, w)
    end.
Proof.
  unfold _load_pause_from_file, load_pause_try, classify, config_fields.
  destruct (fs filename) as [content|]; [|reflexivity].
  destruct (negb (truthy (strip (readline content)))); [reflexivity|].
  destruct (strip <$> split "," (strip (readline content))) as [|a [|b [|c l]]];
    try reflexivity.
  destruct (board_getattr a) as [[p|]|]; try reflexivity.
  destruct (String.eqb (upper b) "IN"), (String.eqb (upper b) "OUT");
    cbv zeta; destruct (_init_dio None p w) as [dio w1]; reflexivity.
Qed.

(** The loader of [PauseButton], case by case. *)
Lemma load_from_file_cases (fs : files) (filename default_pin default_dir : string)
    (w : World) :
  PauseButton._load_from_file fs filename default_pin default_dir w =
    match classify fs filename with
    | MissingFile | EmptyLine | WrongFieldCount =>
        PauseButton.configure default_pin default_dir w
    | UnknownPin name => (Raise (AttributeError name), w)
    | NotAPin _ => (Raise TypeError, w)
    | InvalidDirection p _ =>
        (Raise (ValueError "Invalid direction in config"), snd (new_dio p w))
    | WellFormed p INPUT =>
        (Ret (length (dio_heap w)),
         set_pull (length (dio_heap w)) (Some UP)
           (set_direction (length (dio_heap w)) INPUT (snd (new_dio p w))))
    | WellFormed p OUTPUT =>
        (Ret (length (dio_heap w)),
         set_direction (length (dio_heap w)) OUTPUT (snd (new_dio p w)))
    end.
Proof.
  unfold PauseButton._load_from_file, PauseButton.read_fields, classify, config_fields.
  destruct (fs filename) as [content|]; [|reflexivity].
  destruct (negb (truthy (strip (readline content)))); [reflexivity|].
  destruct (strip <$> split "," (strip (readline content))) as [|a [|b [|c l]]];
    try reflexivity.
  cbn [is_Exception]. unfold PauseButton.configure.
  destruct (board_getattr a) as [[p|]|]; try reflexivity.
  cbn [new_dio].
  destruct (String.eqb (upper b) "IN"), (String.eqb (upper b) "OUT"); reflexivity.
Qed.

(** The pause attribute a constructor call ends with. *)
Lemma load_pause_returns (fs : files) (filename : string) (w : World) :
  exists r w', _load_pause_from_file fs filename w = (Ret r, w').
Proof.
  rewrite load_pause_cases.
  destruct (classify fs filename) as [| | | | | |p []]; cbv zeta; eauto.
Qed.

(** [_init_dio] as a request to the registry. *)
Lemma init_dio_as_acquire (i : option handle) (p : pin) (w : World) :
  snd (_init_dio i p w) = run_acquire w (AcquireDigital i p).
Proof. reflexivity. Qed.

Lemma init_ain_as_acquire (i : option handle) (p : pin) (w : World) :
  snd (_init_ain i p w) = run_acquire w (AcquireAnalog i p).
Proof. reflexivity. Qed.

(** What the constructor of [PixelKit] establishes: it returns an
    object, whose pause attribute is the argument or else what the loader
    returned, whose flags are all cleared, whose stored samples are the
    samples just read; and without a reset argument the digital registry
    maps [board.D5] to the reset handle. *)
Lemma init_establishes (fs : files) (hw : Hardware) (a : Args) (w : World) :
  exists k w',
    __init__ fs hw a w = (Ret k, w')
    /\ pause k =
         match arg_pause a with
         | Some h => Some h
         | None =>
             match fst (_load_pause_from_file fs (arg_pause_config_file a) w) with
             | Ret r => r
             | Raise _ => None
             end
         end
    /\ with_flags false false false false false false false k = k
    /\ dial_value k = avalue hw (dial k)
    /\ microphone_value k = avalue hw (microphone k)
    /\ (arg_button_reset a = None -> _dio_registry w' !! D5 = Some (button_reset k)).
Proof.
  unfold __init__.
  assert (exists r w0,
    match arg_pause a with
    | Some h => (Ret (Some h), w)
    | None => _load_pause_from_file fs (arg_pause_config_file a) w
    end = (Ret r, w0)
    /\ r = match arg_pause a with
           | Some h => Some h
           | None =>
               match fst (_load_pause_from_file fs (arg_pause_config_file a) w) with
               | Ret r => r
               | Raise _ => None
               end
           end) as (r & w0 & -> & Hr).
  { destruct (arg_pause a) as [h|]; [eauto|].
    destruct (load_pause_returns fs (arg_pause_config_file a) w) as (r & w0 & E).
    rewrite E. eauto. }
  destruct (_init_dio (arg_button_A a) D18 w0) as [bA w1] eqn:E1.
  destruct (_init_dio (arg_button_B a) D23 w1) as [bB w2] eqn:E2.
  destruct (_init_dio (arg_button_reset a) D5 w2) as [bR w3] eqn:E3.
  destruct (_init_dio (arg_joystick_up a) D35 w3) as [jU w4] eqn:E4.
  destruct (_init_dio (arg_joystick_down a) D34 w4) as [jD w5] eqn:E5.
  destruct (_init_dio (arg_joystick_left a) D26 w5) as [jL w6] eqn:E6.
  destruct (_init_dio (arg_joystick_right a) D25 w6) as [jR w7] eqn:E7.
  destruct (_init_dio (arg_joystick_click a) D27 w7) as [jC w8] eqn:E8.
  destruct (_init_ain (arg_dial a) VP w8) as [di w9] eqn:E9.
  destruct (_init_ain (arg_microphone a) VN w9) as [mi w10] eqn:E10.
  eexists _, _. split; [reflexivity|]. cbn.
  repeat split; try exact Hr.
  intros Hnone. rewrite Hnone in E3.
  pose proof (init_dio_first D5 w2) as [R _]. rewrite E3 in R. cbn in R.
  apply (f_equal snd) in E4, E5, E6, E7, E8, E9, E10. cbn in *.
  subst w4 w5 w6 w7 w8 w9 w10.
  rewrite !init_ain_as_acquire, !init_dio_as_acquire.
  repeat apply acquire_keeps_dio. exact R.
Qed.

(** A line with two fields is not empty. *)
Lemma two_fields_not_empty (content a b : string) :
  config_fields content = [a; b] -> negb (truthy (strip (readline content))) = false.
Proof.
  unfold config_fields. destruct (strip (readline content)); [|reflexivity].
  cbn. intros [=].
Qed.

Lemma classify_two_fields (fs : files) (filename content a b : string) (p : pin) :
  fs filename = Some content ->
  config_fields content = [a; b] ->
  board_getattr a = Some (PinObj p) ->
  classify fs filename =
    if String.eqb (upper b) "IN" then WellFormed p INPUT
    else if String.eqb (upper b) "OUT" then WellFormed p OUTPUT
    else InvalidDirection p b.
Proof.
  intros Hf Hc Hp. unfold classify.
  now rewrite Hf, (two_fields_not_empty _ _ _ Hc), Hc, Hp.
Qed.

(** C5. Take a config file whose first line has two fields, the first
    naming a pin of the board, and registries whose handles are live
    objects. When the second field, put in upper case, is IN, the loader
    returns the handle the digital registry holds for the pin, and that
    object is an input with pull-up; when it is OUT, the loader returns
    the handle and the object is an output; for every other second field
    the loader returns [None]. *)
Theorem well_formed_line_configures_handle (fs : files) (filename content a b : string)
    (p : pin) (w : World) :
  fs filename = Some content ->
  config_fields content = [a; b] ->
  board_getattr a = Some (PinObj p) ->
  registry_live w ->
  (upper b = "IN" ->
     exists h w' o,
       _load_pause_from_file fs filename w = (Ret (Some h), w')
       /\ _dio_registry w' !! p = Some h
       /\ dio_heap w' !! h = Some o
       /\ direction o = INPUT /\ pull o = Some UP)
  /\ (upper b = "OUT" ->
       exists h w' o,
         _load_pause_from_file fs filename w = (Ret (Some h), w')
         /\ _dio_registry w' !! p = Some h
         /\ dio_heap w' !! h = Some o
         /\ direction o = OUTPUT)
  /\ (upper b <> "IN" -> upper b <> "OUT" ->
       fst (_load_pause_from_file fs filename w) = Ret None).
Proof.
  intros Hf Hc Hp L.
  pose proof (classify_two_fields _ _ _ _ _ _ Hf Hc Hp) as C.
  pose proof (init_dio_live p w L) as Hlt.
  destruct (init_dio_first p w) as [R _].
  apply lookup_lt_is_Some in Hlt. destruct Hlt as [o0 Ho].
  rewrite load_pause_cases, C.
  split; [|split].
  - intros E. rewrite E. cbn [String.eqb Ascii.eqb Bool.eqb]. cbv zeta.
    eexists _, _, _. split; [reflexivity|].
    split; [exact R|]. split.
    + unfold set_pull, set_direction.
      eapply update_dio_lookup, update_dio_lookup, Ho.
    + split; reflexivity.
  - intros E. rewrite E. cbn [String.eqb Ascii.eqb Bool.eqb]. cbv zeta.
    eexists _, _, _. split; [reflexivity|].
    split; [exact R|]. split.
    + unfold set_direction. eapply update_dio_lookup, Ho.
    + reflexivity.
  - intros N1 N2.
    destruct (String.eqb_spec (upper b) "IN"); [contradiction|].
    destruct (String.eqb_spec (upper b) "OUT"); [contradiction|].
    reflexivity.
Qed.

(** C9, as the code has it. When the pin name resolves and the direction
    field is invalid, the loader returns [None]. If the digital registry
    has no entry for the pin yet, the loader has by then built a new
    object for it, an input with pull-up, and entered it in the registry,
    so the registry differs from the one before the call. If the registry
    already has an entry for the pin, the call builds nothing and leaves
    the heap and the registries as they were. *)
Theorem invalid_direction_registers_unregistered_pin (fs : files) (filename field : string)
    (p : pin) (w : World) :
  classify fs filename = InvalidDirection p field ->
  (_dio_registry w !! p = None ->
     _load_pause_from_file fs filename w =
       (Ret None,
        {| dio_heap :=
             dio_heap w ++ [{| dio_pin := p; direction := INPUT; pull := Some UP |}];
           ain_heap := ain_heap w;
           _dio_registry := <[p := length (dio_heap w)]> (_dio_registry w);
           _ain_registry := _ain_registry w |})
     /\ <[p := length (dio_heap w)]> (_dio_registry w) <> _dio_registry w)
  /\ (forall h, _dio_registry w !! p = Some h ->
       _load_pause_from_file fs filename w = (Ret None, w)).
Proof.
  intros C. rewrite load_pause_cases, C. split.
  - intros E. rewrite (init_dio_miss _ _ E). cbn [snd]. split; [reflexivity|].
    intros Heq. apply (f_equal (fun m => m !! p)) in Heq.
    rewrite lookup_insert_eq, E in Heq. discriminate Heq.
  - intros h E. now rewrite (init_dio_hit _ _ _ E).
Qed.

(** C1, as the code has it. The loader of [PixelKit] returns for every
    file, and it returns [None] whenever the file is not a well-formed
    line: missing, first line empty, not two fields, a name that is no
    pin of the board, or an invalid direction. Constructing a [PixelKit]
    without a pause argument from such a file returns an object whose
    pause attribute is [None]. The loader of [PauseButton] differs: on a
    missing file, an empty first line or a wrong field count it goes on
    with the default pin and direction, and on a name the board does not
    have, a name that is no pin, or an invalid direction it raises, and
    so does the constructor of [PauseButton] called with that file. *)
Theorem pause_config_rejection (fs : files) (filename : string) (hw : Hardware)
    (a : Args) (w : World) :
  (exists r w', _load_pause_from_file fs filename w = (Ret r, w'))
  /\ (well_formed (classify fs filename) = false ->
       fst (_load_pause_from_file fs filename w) = Ret None
       /\ (arg_pause a = None -> arg_pause_config_file a = filename ->
            exists k w', __init__ fs hw a w = (Ret k, w') /\ pause k = None)
       /\ (forall default_pin default_dir,
            PauseButton._load_from_file fs filename default_pin default_dir w =
              match classify fs filename with
              | UnknownPin name => (Raise (AttributeError name), w)
              | NotAPin _ => (Raise TypeError, w)
              | InvalidDirection p _ =>
                  (Raise (ValueError "Invalid direction in config"), snd (new_dio p w))
              | _ => PauseButton.configure default_pin default_dir w
              end)
       /\ (forall button_ leds_,
            truthy filename = true ->
            match classify fs filename with
            | UnknownPin _ | NotAPin _ | InvalidDirection _ _ =>
                exists e w',
                  PauseButton.__init__ fs button_ leds_ (Some filename) w = (Raise e, w')
            | _ => True
            end)).
Proof.
  split; [apply load_pause_returns|]. intros Hwf.
  split; [|split; [|split]].
  - rewrite load_pause_cases.
    destruct (classify fs filename); try reflexivity. discriminate Hwf.
  - intros Hp Hfile.
    destruct (init_establishes fs hw a w) as (k & w' & E & Hpause & _).
    exists k, w'. split; [exact E|].
    rewrite Hpause, Hp, Hfile, load_pause_cases.
    destruct (classify fs filename); try reflexivity. discriminate Hwf.
  - intros dp dd. rewrite load_from_file_cases.
    destruct (classify fs filename); try reflexivity. discriminate Hwf.
  - intros b l Ht. unfold PauseButton.__init__. rewrite Ht, load_from_file_cases.
    destruct (classify fs filename); try exact I; eauto.
Qed.

End Loading.

(** ** The object over its life *)

Section Objects.
Context {board : Board}.


(** C4, as the code has it. In [PixelKit], with a pause handle that reads
    inactive ([True]) the pause check returns and touches neither the
    strip nor the object; with one that reads active it calls [fill] with
    black once, then [show] once, and then exits, both calls before the
    exit; without a pause handle it does nothing. In [PauseButton],
    [update] with a button that reads inactive returns and touches
    nothing; with one that reads active it calls [fill] with black once
    when there are leds and not at all when there are none, and then
    exits; it never calls [show]. *)
Theorem pause_check_behaviour (hw : Hardware) (k : PixelKit)
    (self : PauseButton.PauseButton) :
  (forall p, pause k = Some p ->
     _update_pause hw k =
       if dvalue hw p then (Ret tt, k, [ReadDigital p])
       else (Raise SystemExit, k,
             [ReadDigital p; StripFill (0, 0, 0)%Z; StripShow]))
  /\ (pause k = None -> _update_pause hw k = (Ret tt, k, []))
  /\ (forall b, PauseButton.button self = Some b ->
        PauseButton.update hw self =
          if dvalue hw b then (Ret tt, [PauseButton.ReadButton b])
          else (Raise SystemExit,
                PauseButton.ReadButton b
                :: match PauseButton.leds self with
                   | Some l => [PauseButton.LedsFill l (0, 0, 0)%Z]
                   | None => []
                   end))
  /\ (PauseButton.button self = None -> PauseButton.update hw self = (Ret tt, []))
  /\ (forall l, ~ In (PauseButton.LedsShow l) (snd (PauseButton.update hw self))).
Proof.
  split; [|split; [|split; [|split]]].
  - intros p E. rewrite update_pause_run, E. cbn. now destruct (dvalue hw p).
  - intros E. rewrite update_pause_run, E. reflexivity.
  - intros b E. unfold PauseButton.update. rewrite E.
    destruct (dvalue hw b); [reflexivity|]. cbn.
    now destruct (PauseButton.leds self).
  - intros E. unfold PauseButton.update. now rewrite E.
  - intros l. unfold PauseButton.update.
    destruct (PauseButton.button self) as [b|]; [|intros []].
    destruct (dvalue hw b); cbn; [intros [[=]|[]]|].
    destruct (PauseButton.leds self); cbn; intros H;
      repeat (destruct H as [H|H]; [discriminate H|]); exact H.
Qed.





End Objects.

(** ** Runs on the sample board *)

(** C1, the claim as stated fails for the loader of [PauseButton]: with
    the file missing it returns a handle for the default pin instead of
    [None], and with an invalid direction it raises, so that constructing
    the [PauseButton] fails. *)
Lemma pause_button_loader_defaults_or_raises :
  classify Sample.no_file Sample.config_name = MissingFile
  /\ fst (PauseButton._load_from_file Sample.no_file Sample.config_name "IO15" "IN"
            empty_world) = Ret 0
  /\ classify (Sample.one_file "D15,SIDEWAYS") Sample.config_name
     = InvalidDirection 15%N "SIDEWAYS"
  /\ fst (PauseButton.__init__ (Sample.one_file "D15,SIDEWAYS") None None
            (Some Sample.config_name) empty_world)
     = Raise (ValueError "Invalid direction in config")
  /\ fst (PauseButton.__init__ (Sample.one_file "D99,IN") None None
            (Some Sample.config_name) empty_world)
     = Raise (AttributeError "D99").
Proof. repeat split; vm_compute; reflexivity. Qed.

Lemma pause_config_rejection_witness :
  well_formed (classify (Sample.one_file "D15,SIDEWAYS") Sample.config_name) = false
  /\ fst (_load_pause_from_file (Sample.one_file "D15,SIDEWAYS") Sample.config_name
            empty_world) = Ret None.
Proof.
  split; [reflexivity|].
  destruct (pause_config_rejection (Sample.one_file "D15,SIDEWAYS") Sample.config_name
              Sample.idle default_args empty_world) as [_ H].
  destruct (H eq_refl) as [H1 _]. exact H1.
Defined.

(** C4, the claim as stated fails for [PauseButton.update]: with the
    button active it calls [fill] and exits without any [show], and
    without leds it exits without [fill] either. *)
Lemma pause_button_update_exits_without_show :
  PauseButton.update (Sample.pressed 0) Sample.button_with_leds
  = (Raise SystemExit,
     [PauseButton.ReadButton 0; PauseButton.LedsFill 0 (0, 0, 0)%Z])
  /\ PauseButton.update (Sample.pressed 0) Sample.button_without_leds
     = (Raise SystemExit, [PauseButton.ReadButton 0]).
Proof. split; reflexivity. Qed.

Lemma pause_check_behaviour_witness :
  pause Sample.kit = Some 0
  /\ _update_pause (Sample.pressed 0) Sample.kit
     = (Raise SystemExit, Sample.kit,
        [ReadDigital 0; StripFill (0, 0, 0)%Z; StripShow])
  /\ _update_pause Sample.idle Sample.kit = (Ret tt, Sample.kit, [ReadDigital 0]).
Proof.
  split; [reflexivity|]. split.
  - destruct (pause_check_behaviour (Sample.pressed 0) Sample.kit
                Sample.button_with_leds) as [H _].
    exact (H 0 eq_refl).
  - destruct (pause_check_behaviour Sample.idle Sample.kit
                Sample.button_with_leds) as [H _].
    exact (H 0 eq_refl).
Defined.

Lemma well_formed_line_configures_handle_witness :
  config_fields " D15 , in " = ["D15"; "in"]
  /\ exists h w' o,
       _load_pause_from_file (Sample.one_file " D15 , in ") Sample.config_name
         empty_world = (Ret (Some h), w')
       /\ _dio_registry w' !! 15%N = Some h
       /\ dio_heap w' !! h = Some o
       /\ direction o = INPUT /\ pull o = Some UP.
Proof.
  split; [reflexivity|].
  destruct (well_formed_line_configures_handle
              (Sample.one_file " D15 , in ") Sample.config_name " D15 , in "
              "D15" "in" 15%N empty_world) as [H _].
  - reflexivity.
  - reflexivity.
  - reflexivity.
  - intros p h. cbn. rewrite lookup_empty. intros [=].
  - exact (H eq_refl).
Defined.

(** C9, the claim as stated fails when the pin is registered already: a
    second [PixelKit] in the process, whose config names the pin of
    button A with an invalid direction, gets [None] and the loader has
    built nothing and changed neither registry. *)
Lemma invalid_direction_on_registered_pin_changes_nothing :
  classify (Sample.one_file "D18,SIDEWAYS") Sample.config_name
  = InvalidDirection 18%N "SIDEWAYS"
  /\ _dio_registry Sample.after_first_kit !! 18%N = Some 0
  /\ _load_pause_from_file (Sample.one_file "D18,SIDEWAYS") Sample.config_name
       Sample.after_first_kit
     = (Ret None, Sample.after_first_kit).
Proof. repeat split; vm_compute; reflexivity. Qed.

Lemma invalid_direction_registers_unregistered_pin_witness :
  classify (Sample.one_file "D15,SIDEWAYS") Sample.config_name
  = InvalidDirection 15%N "SIDEWAYS"
  /\ _dio_registry empty_world !! 15%N = None
  /\ _load_pause_from_file (Sample.one_file "D15,SIDEWAYS") Sample.config_name
       empty_world
     = (Ret None,
        {| dio_heap := [{| dio_pin := 15%N; direction := INPUT; pull := Some UP |}];
           ain_heap := [];
           _dio_registry := <[15%N := 0]> ∅;
           _ain_registry := ∅ |}).
Proof.
  split; [reflexivity|]. split; [reflexivity|].
  destruct (invalid_direction_registers_unregistered_pin
              (Sample.one_file "D15,SIDEWAYS") Sample.config_name "SIDEWAYS"
              15%N empty_world) as [H _]; [reflexivity|].
  destruct H as [H1 _]; [reflexivity|]. exact H1.
Defined.



(** * Further properties *)

(** ** Polling over time *)

Section PollingRuns.




Lemma last_cons_default (v d : Z) (l : list Z) :
  List.last (v :: l) d = List.last l v.
Proof.
  revert v d. induction l as [|a l IH]; intros v d; [reflexivity|].
  change (List.last (v :: a :: l) d) with (List.last (a :: l) d).
  now rewrite (IH a d), (IH a v).
Qed.

Lemma calls_app (t u : list Action) : calls (t ++ u) = calls t ++ calls u.
Proof. apply List.filter_app. Qed.

Lemma calls_analog (hw : Hardware) (ain : handle) (stored : Z) (f : Hook) :
  calls (analog_segment hw ain stored f)
  = if (avalue hw ain =? stored)%Z then [] else [Call f [avalue hw ain]].
Proof. unfold analog_segment. now destruct (avalue hw ain =? stored)%Z. Qed.

(** X2. Any run of polls of the dial calls [on_dial] exactly with the
    samples that differ from the sample before them (the stored value
    standing for the sample before the run), in that order, and ends
    with the last sample stored; the microphone value is left alone. *)
Theorem dial_calls_are_changes (hws : list Hardware) (k : PixelKit) :
  let run := per_step _check_dial hws k in
  let samples := (fun hw => avalue hw (dial k)) <$> hws in
  length (fst run) = length hws
  /\ calls (concat (fst run))
     = (fun v => Call on_dial [v]) <$> changes (dial_value k) samples
  /\ dial_value (snd run) = List.last samples (dial_value k)
  /\ microphone_value (snd run) = microphone_value k
  /\ wiring (snd run) = wiring k.
Proof.
  revert k. induction hws as [|hw hws IH]; intros k; cbn zeta.
  - cbn. auto.
  - cbn [per_step]. rewrite check_dial_run.
    specialize (IH (with_samples (avalue hw (dial k)) (microphone_value k) k)).
    cbn zeta in IH. cbn [dial dial_value microphone_value with_samples] in IH.
    destruct (per_step _check_dial hws _) as [ts k'] eqn:E.
    cbn [fst snd] in *. destruct IH as (Hlen & Hcalls & Hlast & Hmic & Hwire).
    rewrite fmap_cons. cbn [length concat changes].
    rewrite calls_app, calls_analog, Hcalls, Hlen, Hmic, Hwire.
    repeat split.
    + now destruct (avalue hw (dial k) =? dial_value k)%Z eqn:Eq;
        [apply Z.eqb_eq in Eq; rewrite Eq|].
    + rewrite Hlast. symmetry. apply last_cons_default.
Qed.

(** X3. Polling again while nothing on the hardware has changed calls no
    hook and changes nothing in the object: a held button gives one press
    only, a steady sample no call. *)
Theorem steady_hardware_is_silent (hw : Hardware) (k : PixelKit) :
  let k1 := snd (fst (check_controls hw k)) in
  hooks_called (snd (check_controls hw k1)) = []
  /\ snd (fst (check_controls hw k1)) = k1.
Proof.
  cbn zeta. rewrite !check_controls_run. cbn [fst snd]. split.
  - unfold scan_order_trace.
    rewrite !hooks_called_app, !hooks_called_digital, !hooks_called_analog,
      hooks_called_pause.
    unfold after_poll.
    cbn [pause button_A button_B joystick_up joystick_down joystick_left
         joystick_right joystick_click dial microphone dial_value
         microphone_value is_pressing_up is_pressing_down is_pressing_left
         is_pressing_right is_pressing_click is_pressing_a is_pressing_b
         with_flags with_samples].
    rewrite !Z.eqb_refl.
    now destruct (dvalue hw (joystick_up k)), (dvalue hw (joystick_down k)),
      (dvalue hw (joystick_left k)), (dvalue hw (joystick_right k)),
      (dvalue hw (joystick_click k)), (dvalue hw (button_A k)),
      (dvalue hw (button_B k)).
  - reflexivity.
Qed.

(** X4. No run of poll cycles changes the wiring of the object: the
    pause handle, the eight digital handles and the two analog handles
    after the run are those before it, also when the run ends in the
    exit of the pause check. *)
Theorem polls_keep_wiring (hws : list Hardware) (k : PixelKit) :
  wiring (snd (per_step check_controls hws k)) = wiring k.
Proof.
  revert k. induction hws as [|hw hws IH]; intros k; [reflexivity|].
  cbn [per_step]. rewrite check_controls_run.
  destruct (pause_result hw (pause k)).
  - specialize (IH (after_poll hw k)).
    destruct (per_step check_controls hws (after_poll hw k)) as [ts k'].
    cbn [snd] in *. now rewrite IH.
  - reflexivity.
Qed.

(** The object has a hook under the name [_check_digital] builds only at
    the seven call sites. *)
Lemma method_only_at_sites (name : string) (is_joystick : bool) (f : Hook) :
  method ("on_" +:+ (if is_joystick then "joystick_" else "button_") +:+ name) = Some f ->
  In (name, is_joystick) digital_inputs.
Proof.
  unfold method, digital_inputs.
  destruct is_joystick;
    repeat match goal with
           | |- context [String.eqb ?s ?c] =>
               destruct (String.eqb_spec s c) as [E|_];
               [intros _;
                first [discriminate E
                      | injection E as E; pose proof (E : name = _) as ->;
                        cbn; tauto]|]
           end;
    cbv beta iota; intros [=].
Qed.

(** X5. Called for any other name, or with the other value of
    [is_joystick], [_check_digital] raises [AttributeError] for the hook
    name it built, before it reads the pin and without touching the
    object. So the reset button, for which the class has no
    [on_button_reset], could not be polled this way. *)
Theorem check_digital_off_site_raises (hw : Hardware) (dio : handle) (name : string)
    (is_joystick : bool) (k : PixelKit) :
  ~ In (name, is_joystick) digital_inputs ->
  _check_digital hw dio name is_joystick k
  = (Raise (AttributeError
             ("on_" +:+ (if is_joystick then "joystick_" else "button_") +:+ name)),
     k, []).
Proof.
  intros Hnot. unfold _check_digital, getattr_method, bind.
  destruct (method _) as [f|] eqn:E; [|reflexivity].
  destruct Hnot. eapply method_only_at_sites, E.
Qed.

End PollingRuns.

Lemma check_digital_off_site_raises_witness :
  ~ In ("reset", false) digital_inputs
  /\ _check_digital Sample.idle 3 "reset" false Sample.kit
     = (Raise (AttributeError "on_button_reset"), Sample.kit, []).
Proof.
  assert (~ In ("reset", false) digital_inputs) as H.
  { cbn. intros H. repeat (destruct H as [H|H]; [discriminate H|]). exact H. }
  split; [exact H|].
  exact (check_digital_off_site_raises Sample.idle 3 "reset" false Sample.kit H).
Defined.


(** ** The process state over constructions *)

Section Worlds.
Context {board : Board}.

Lemma extends_refl (w : World) : extends w w.
Proof. now repeat split. Qed.

Lemma extends_trans (w1 w2 w3 : World) :
  extends w1 w2 -> extends w2 w3 -> extends w1 w3.
Proof.
  intros (A1 & B1 & C1 & D1) (A2 & B2 & C2 & D2).
  repeat split; eauto.
Qed.

Lemma grows_refl (w : World) : grows w w.
Proof. repeat split; eauto. Qed.

Lemma grows_trans (w1 w2 w3 : World) :
  grows w1 w2 -> grows w2 w3 -> grows w1 w3.
Proof.
  intros (A1 & B1 & C1 & D1) (A2 & B2 & C2 & D2).
  repeat split; eauto.
  intros h o Ho. destruct (C1 h o Ho) as (o' & Ho' & Hp).
  destruct (C2 h o' Ho') as (o'' & Ho'' & Hp'). exists o''. split; congruence.
Qed.

Lemma extends_grows (w w' : World) : extends w w' -> grows w w'.
Proof. intros (A & B & C & D). repeat split; eauto. Qed.

(** A request to a registry touches nothing that is there. *)
Lemma acquire_extends (a : acquire) (w : World) : extends w (run_acquire w a).
Proof.
  destruct a as [[i|] p | [i|] p]; unfold run_acquire; try apply extends_refl.
  - destruct (_dio_registry w !! p) as [h|] eqn:E.
    + rewrite (init_dio_hit _ _ _ E). apply extends_refl.
    + rewrite (init_dio_miss _ _ E). cbn [snd].
      split; [|split; [|split]]; cbn; auto.
      * intros q h Hq. rewrite lookup_insert_ne; [exact Hq | congruence].
      * intros h o Ho. now apply lookup_app_l_Some.
  - destruct (_ain_registry w !! p) as [h|] eqn:E.
    + rewrite (init_ain_hit _ _ _ E). apply extends_refl.
    + rewrite (init_ain_miss _ _ E). cbn [snd].
      split; [|split; [|split]]; cbn; auto.
      * intros q h Hq. rewrite lookup_insert_ne; [exact Hq | congruence].
      * intros h o Ho. now apply lookup_app_l_Some.
Qed.

Lemma acquires_extend (l : list acquire) (w : World) : extends w (run_acquires l w).
Proof.
  revert w. induction l as [|a l IH]; intros w; [apply extends_refl|].
  eapply extends_trans; [apply acquire_extends | apply IH].
Qed.

(** Assigning an attribute keeps the pin of every object, the length of
    the heap and both registries. *)
Lemma update_dio_grows (f : DigitalInOut -> DigitalInOut) (h : handle) (w : World) :
  (forall o, dio_pin (f o) = dio_pin o) -> grows w (update_dio f h w).
Proof.
  intros Hf. unfold update_dio. repeat split; cbn; auto.
  intros h' o Ho. destruct (dio_heap w !! h) as [o0|] eqn:E; [|eauto].
  destruct (decide (h = h')) as [->|N].
  - rewrite list_lookup_insert_eq by (now apply lookup_lt_Some in E).
    eexists. split; [reflexivity|]. rewrite Hf.
    assert (Some o0 = Some o) as [= ->] by (rewrite <- E; exact Ho).
    reflexivity.
  - rewrite list_lookup_insert_ne by exact N. eauto.
Qed.

Lemma update_dio_bound (f : DigitalInOut -> DigitalInOut) (h : handle) (w : World) :
  (forall o, dio_pin (f o) = dio_pin o) -> dio_bound (update_dio f h w) = dio_bound w.
Proof.
  intros Hf. unfold update_dio, dio_bound. cbn [dio_heap].
  destruct (dio_heap w !! h) as [o0|] eqn:E; [|reflexivity].
  rewrite list_fmap_insert, Hf. apply list_insert_id.
  unfold handle in *. now rewrite list_lookup_fmap, E.
Qed.


(** The state the constructor ends in. *)
Lemma init_world (fs : files) (hw : Hardware) (a : Args) (w : World) :
  snd (__init__ fs hw a w) = run_acquires (init_acquires a) (after_pause fs a w).
Proof.
  unfold __init__, after_pause.
  assert (exists r w0,
    match arg_pause a with
    | Some h => (Ret (Some h), w)
    | None => _load_pause_from_file fs (arg_pause_config_file a) w
    end = (Ret r, w0)
    /\ w0 = match arg_pause a with
            | Some _ => w
            | None => snd (_load_pause_from_file fs (arg_pause_config_file a) w)
            end) as (r & w0 & -> & ->).
  { destruct (arg_pause a) as [h|]; [eauto|].
    destruct (load_pause_returns fs (arg_pause_config_file a) w) as (r & w0 & E).
    rewrite E. eauto. }
  unfold run_acquires, init_acquires. cbn [foldl run_acquire].
  repeat match goal with
         | |- context [let '(_, _) := ?x in _] => rewrite (surjective_pairing x)
         end.
  reflexivity.
Qed.

Lemma update_dio_ain (f : DigitalInOut -> DigitalInOut) (h : handle) (w : World) :
  ain_heap (update_dio f h w) = ain_heap w.
Proof. reflexivity. Qed.

Lemma update_dio_ain_registry (f : DigitalInOut -> DigitalInOut) (h : handle) (w : World) :
  _ain_registry (update_dio f h w) = _ain_registry w.
Proof. reflexivity. Qed.

Lemma update_dio_registry (f : DigitalInOut -> DigitalInOut) (h : handle) (w : World) :
  _dio_registry (update_dio f h w) = _dio_registry w.
Proof. reflexivity. Qed.

Lemma update_dio_length (f : DigitalInOut -> DigitalInOut) (h : handle) (w : World) :
  length (dio_heap (update_dio f h w)) = length (dio_heap w).
Proof.
  unfold update_dio. cbn [dio_heap].
  destruct (dio_heap w !! h); [apply length_insert | reflexivity].
Qed.

Lemma set_direction_grows (h : handle) (d : Direction) (w : World) :
  grows w (set_direction h d w).
Proof. now apply update_dio_grows. Qed.

Lemma set_pull_grows (h : handle) (q : option Pull) (w : World) :
  grows w (set_pull h q w).
Proof. now apply update_dio_grows. Qed.

Lemma init_dio_frame (p : pin) (w : World) :
  ain_heap (snd (_init_dio None p w)) = ain_heap w
  /\ _ain_registry (snd (_init_dio None p w)) = _ain_registry w
  /\ length (dio_heap w) <= length (dio_heap (snd (_init_dio None p w)))
     <= length (dio_heap w) + 1
  /\ (forall q h, _dio_registry (snd (_init_dio None p w)) !! q = Some h ->
       _dio_registry w !! q = Some h \/ q = p).
Proof.
  destruct (_dio_registry w !! p) as [h|] eqn:E.
  - rewrite (init_dio_hit _ _ _ E). cbn. repeat split; auto; lia.
  - rewrite (init_dio_miss _ _ E). cbn. rewrite length_app. cbn.
    repeat split; auto; try lia.
    intros q h. destruct (decide (p = q)) as [->|N]; [auto|].
    rewrite lookup_insert_ne by exact N. auto.
Qed.

(** X6. Whatever the file is, the loader of [PixelKit] leaves the analog
    registry and the analog objects alone, keeps every entry of the
    digital registry, keeps every digital object bound to its pin, builds
    at most one new object, and enters nothing in the digital registry
    but the pin the config names. *)
Theorem load_pause_frame (fs : files) (filename : string) (w : World) :
  let w' := snd (_load_pause_from_file fs filename w) in
  grows w w'
  /\ ain_heap w' = ain_heap w
  /\ _ain_registry w' = _ain_registry w
  /\ length (dio_heap w) <= length (dio_heap w') <= length (dio_heap w) + 1
  /\ (forall q h, _dio_registry w' !! q = Some h ->
       _dio_registry w !! q = Some h
       \/ match classify fs filename with
          | WellFormed p _ | InvalidDirection p _ => q = p
          | _ => False
          end).
Proof.
  cbn zeta. rewrite load_pause_cases.
  pose proof (fun p => extends_grows _ _ (acquire_extends (AcquireDigital None p) w)) as G.
  unfold run_acquire in G.
  destruct (classify fs filename) as [| | | | |p f|p []]; cbv zeta; cbn [snd];
    try (split; [apply grows_refl|]; repeat split; auto; lia).
  - destruct (init_dio_frame p w) as (A & B & C & D).
    split; [apply G|]. repeat split; try assumption; lia.
  - destruct (init_dio_frame p w) as (A & B & C & D). specialize (G p).
    destruct (_init_dio None p w) as [h0 w0]. cbn [fst snd] in *.
    split.
    { eapply grows_trans; [apply G|].
      eapply grows_trans; [apply set_direction_grows | apply set_pull_grows]. }
    unfold set_pull, set_direction.
    rewrite !update_dio_ain, !update_dio_ain_registry, !update_dio_registry,
      !update_dio_length.
    repeat split; try assumption; lia.
  - destruct (init_dio_frame p w) as (A & B & C & D). specialize (G p).
    destruct (_init_dio None p w) as [h0 w0]. cbn [fst snd] in *.
    split.
    { eapply grows_trans; [apply G | apply set_direction_grows]. }
    unfold set_direction.
    rewrite !update_dio_ain, !update_dio_ain_registry, !update_dio_registry,
      !update_dio_length.
    repeat split; try assumption; lia.
Qed.

Lemma registry_exact_empty : registry_exact empty_world.
Proof. split; intros p h; cbn; rewrite lookup_empty; intros [=]. Qed.

Lemma registry_exact_acquire (a : acquire) (w : World) :
  registry_exact w -> registry_exact (run_acquire w a).
Proof.
  intros [Xd Xa].
  destruct a as [[i|] p | [i|] p]; unfold run_acquire; try (split; assumption).
  - destruct (_dio_registry w !! p) as [h|] eqn:E.
    + rewrite (init_dio_hit _ _ _ E). now split.
    + rewrite (init_dio_miss _ _ E). split; cbn; [|exact Xa].
      intros q h. destruct (decide (p = q)) as [->|N].
      * rewrite lookup_insert_eq. intros [= <-].
        eexists. split; [apply snoc_lookup | reflexivity].
      * rewrite lookup_insert_ne by exact N. intros Hq.
        destruct (Xd q h Hq) as (o & Ho & Hp). exists o.
        split; [now apply lookup_app_l_Some | exact Hp].
  - destruct (_ain_registry w !! p) as [h|] eqn:E.
    + rewrite (init_ain_hit _ _ _ E). now split.
    + rewrite (init_ain_miss _ _ E). split; cbn; [exact Xd|].
      intros q h. destruct (decide (p = q)) as [->|N].
      * rewrite lookup_insert_eq. intros [= <-].
        eexists. split; [apply snoc_lookup | reflexivity].
      * rewrite lookup_insert_ne by exact N. intros Hq.
        destruct (Xa q h Hq) as (o & Ho & Hp). exists o.
        split; [now apply lookup_app_l_Some | exact Hp].
Qed.

Lemma registry_exact_acquires (l : list acquire) (w : World) :
  registry_exact w -> registry_exact (run_acquires l w).
Proof.
  revert w. induction l as [|a l IH]; intros w X; [exact X|].
  apply IH, registry_exact_acquire, X.
Qed.

Lemma registry_exact_update (f : DigitalInOut -> DigitalInOut) (h : handle) (w : World) :
  (forall o, dio_pin (f o) = dio_pin o) ->
  registry_exact w -> registry_exact (update_dio f h w).
Proof.
  intros Hf [Xd Xa]. destruct (update_dio_grows f h w Hf) as (_ & _ & G & _).
  split; [|exact Xa].
  intros p h'. rewrite update_dio_registry. intros Hp.
  destruct (Xd p h' Hp) as (o & Ho & Hpin).
  destruct (G h' o Ho) as (o' & Ho' & Hpin'). exists o'.
  split; [exact Ho' | now rewrite Hpin'].
Qed.

Lemma registry_exact_load (fs : files) (filename : string) (w : World) :
  registry_exact w -> registry_exact (snd (_load_pause_from_file fs filename w)).
Proof.
  intros X. rewrite load_pause_cases.
  pose proof (fun p => registry_exact_acquire (AcquireDigital None p) w X) as XA.
  unfold run_acquire in XA.
  destruct (classify fs filename) as [| | | | |p f|p []]; cbv zeta; cbn [snd];
    try exact X.
  - apply XA.
  - unfold set_pull, set_direction.
    apply registry_exact_update; [reflexivity|].
    apply registry_exact_update; [reflexivity|]. apply XA.
  - unfold set_direction. apply registry_exact_update; [reflexivity|]. apply XA.
Qed.

(** X7. In every state a process reaches by constructing [PixelKit]
    objects and loading pause configs from empty registries, each entry
    of a registry is a live object bound to the pin of the entry: the
    property holds at the start and the registry requests, the loader
    and the constructor keep it. Under it two different pins never have
    the same handle in a registry. *)
Theorem registries_stay_exact (fs : files) (filename : string) (hw : Hardware)
    (a : Args) (i : option handle) (p : pin) (w : World) :
  registry_exact empty_world
  /\ (registry_exact w ->
       registry_exact (snd (_init_dio i p w))
       /\ registry_exact (snd (_init_ain i p w))
       /\ registry_exact (snd (_load_pause_from_file fs filename w))
       /\ registry_exact (snd (__init__ fs hw a w))
       /\ (forall q1 q2 h,
            _dio_registry w !! q1 = Some h -> _dio_registry w !! q2 = Some h -> q1 = q2)
       /\ (forall q1 q2 h,
            _ain_registry w !! q1 = Some h -> _ain_registry w !! q2 = Some h -> q1 = q2)).
Proof.
  split; [apply registry_exact_empty|]. intros X.
  split; [apply (registry_exact_acquire (AcquireDigital i p) w X)|].
  split; [apply (registry_exact_acquire (AcquireAnalog i p) w X)|].
  split; [apply registry_exact_load, X|].
  split.
  - rewrite init_world. apply registry_exact_acquires. unfold after_pause.
    destruct (arg_pause a); [exact X | apply registry_exact_load, X].
  - destruct X as [Xd Xa]. split.
    + intros q1 q2 h H1 H2.
      destruct (Xd q1 h H1) as (o1 & Ho1 & <-).
      destruct (Xd q2 h H2) as (o2 & Ho2 & <-).
      unfold handle in *. congruence.
    + intros q1 q2 h H1 H2.
      destruct (Xa q1 h H1) as (o1 & Ho1 & <-).
      destruct (Xa q2 h H2) as (o2 & Ho2 & <-).
      unfold handle in *. congruence.
Qed.

Lemma bound_once_update (f : DigitalInOut -> DigitalInOut) (h : handle) (w : World) :
  (forall o, dio_pin (f o) = dio_pin o) ->
  bound_once w -> bound_once (update_dio f h w).
Proof.
  intros Hf B q. rewrite (update_dio_bound f h w Hf). exact (B q).
Qed.

Lemma bound_once_load (fs : files) (filename : string) (w : World) :
  bound_once w -> bound_once (snd (_load_pause_from_file fs filename w)).
Proof.
  intros B. rewrite load_pause_cases.
  pose proof (fun p => bound_once_acquire (AcquireDigital None p) w B) as BA.
  unfold run_acquire in BA.
  destruct (classify fs filename) as [| | | | |p f|p []]; cbv zeta; cbn [snd];
    try exact B.
  - apply BA.
  - unfold set_pull, set_direction.
    apply bound_once_update; [reflexivity|].
    apply bound_once_update; [reflexivity|]. apply BA.
  - unfold set_direction. apply bound_once_update; [reflexivity|]. apply BA.
Qed.

Lemma bound_once_init (fs : files) (hw : Hardware) (a : Args) (w : World) :
  bound_once w -> bound_once (snd (__init__ fs hw a w)).
Proof.
  intros B. rewrite init_world. apply bound_once_acquires. unfold after_pause.
  destruct (arg_pause a); [exact B | apply bound_once_load, B].
Qed.

(** X8. A process that starts with empty registries and only constructs
    [PixelKit] objects, however many, with whatever files, hardware and
    arguments, never binds a pin twice in the digital driver nor twice in
    the analog driver. *)
Theorem kits_never_bind_twice (cs : list (files * Hardware * Args)) (q : pin) :
  times q (dio_bound (construct_all cs empty_world)) <= 1
  /\ times q (ain_bound (construct_all cs empty_world)) <= 1.
Proof.
  assert (forall w, bound_once w -> bound_once (construct_all cs w)) as H.
  { induction cs as [|c cs IH]; intros w B; [exact B|].
    apply IH. unfold construct. apply bound_once_init, B. }
  destruct (H empty_world bound_once_empty q) as [Hd Ha].
  rewrite Hd, Ha.
  destruct (_dio_registry _ !! q), (_ain_registry _ !! q); lia.
Qed.

(** The constructor in closed form. *)
Lemma init_run (fs : files) (hw : Hardware) (a : Args) (w : World) :
  exists k,
    __init__ fs hw a w = (Ret k, run_acquires (init_acquires a) (after_pause fs a w))
    /\ pause k = pause_choice fs a w
    /\ handles_of k = acquire_results (init_acquires a) (after_pause fs a w)
    /\ dial_value k = avalue hw (dial k)
    /\ microphone_value k = avalue hw (microphone k)
    /\ with_flags false false false false false false false k = k.
Proof.
  unfold __init__, after_pause, pause_choice.
  assert (exists r w0,
    match arg_pause a with
    | Some h => (Ret (Some h), w)
    | None => _load_pause_from_file fs (arg_pause_config_file a) w
    end = (Ret r, w0)
    /\ w0 = match arg_pause a with
            | Some _ => w
            | None => snd (_load_pause_from_file fs (arg_pause_config_file a) w)
            end
    /\ r = match arg_pause a with
           | Some h => Some h
           | None =>
               match fst (_load_pause_from_file fs (arg_pause_config_file a) w) with
               | Ret r => r
               | Raise _ => None
               end
           end) as (r & w0 & -> & <- & <-).
  { destruct (arg_pause a) as [h|]; [eauto|].
    destruct (load_pause_returns fs (arg_pause_config_file a) w) as (r & w0 & E).
    rewrite E. eauto. }
  unfold run_acquires, init_acquires.
  cbn [foldl run_acquire acquire_results acquire_result].
  destruct (_init_dio (arg_button_A a) D18 w0) as [bA w1]; cbn [fst snd].
  destruct (_init_dio (arg_button_B a) D23 w1) as [bB w2]; cbn [fst snd].
  destruct (_init_dio (arg_button_reset a) D5 w2) as [bR w3]; cbn [fst snd].
  destruct (_init_dio (arg_joystick_up a) D35 w3) as [jU w4]; cbn [fst snd].
  destruct (_init_dio (arg_joystick_down a) D34 w4) as [jD w5]; cbn [fst snd].
  destruct (_init_dio (arg_joystick_left a) D26 w5) as [jL w6]; cbn [fst snd].
  destruct (_init_dio (arg_joystick_right a) D25 w6) as [jR w7]; cbn [fst snd].
  destruct (_init_dio (arg_joystick_click a) D27 w7) as [jC w8]; cbn [fst snd].
  destruct (_init_ain (arg_dial a) VP w8) as [di w9]; cbn [fst snd].
  destruct (_init_ain (arg_microphone a) VN w9) as [mi w10]; cbn [fst snd].
  eexists. split; [reflexivity|]. repeat split; reflexivity.
Qed.

(** A request that has been made once is settled in every later state
    that kept what was there: made again it returns the same handle and
    changes nothing. *)
Lemma acquire_settled (a : acquire) (w w' : World) :
  extends (run_acquire w a) w' ->
  acquire_result w' a = acquire_result w a /\ run_acquire w' a = w'.
Proof.
  intros (Ed & Ea & _ & _).
  destruct a as [[i|] p | [i|] p]; unfold run_acquire, acquire_result in *;
    try (split; reflexivity).
  - destruct (init_dio_first p w) as [R _]. apply Ed in R.
    now rewrite (init_dio_hit _ _ _ R).
  - destruct (init_ain_first p w) as [R _]. apply Ea in R.
    now rewrite (init_ain_hit _ _ _ R).
Qed.

Lemma acquires_settled (l : list acquire) (w w' : World) :
  extends (run_acquires l w) w' ->
  run_acquires l w' = w'
  /\ acquire_results l w' = acquire_results l w
  /\ Forall2 (fun a h => acquire_result w' a = h /\ run_acquire w' a = w')
       l (acquire_results l w).
Proof.
  revert w. induction l as [|a l IH]; intros w E; [repeat split; constructor|].
  assert (extends (run_acquire w a) w') as Ea.
  { eapply extends_trans; [apply (acquires_extend l) | exact E]. }
  destruct (acquire_settled a w w' Ea) as [Hr Hw].
  destruct (IH (run_acquire w a) E) as (Hws & Hrs & Hall).
  cbn [acquire_results]. unfold run_acquires in *. cbn [foldl].
  rewrite Hw, Hr, Hws, Hrs. repeat split. constructor; [now split | exact Hall].
Qed.





Lemma settled_entry_dio (i : option handle) (p : pin) (h : handle) (w : World) :
  acquire_result w (AcquireDigital i p) = h /\ run_acquire w (AcquireDigital i p) = w ->
  match i with
  | Some h0 => h = h0
  | None => _dio_registry w !! p = Some h
  end.
Proof.
  unfold acquire_result, run_acquire. intros [Hr Hw].
  destruct i as [h0|]; [now cbn in Hr|].
  destruct (init_dio_first p w) as [R _]. now rewrite Hr, Hw in R.
Qed.

Lemma settled_entry_ain (i : option handle) (p : pin) (h : handle) (w : World) :
  acquire_result w (AcquireAnalog i p) = h /\ run_acquire w (AcquireAnalog i p) = w ->
  match i with
  | Some h0 => h = h0
  | None => _ain_registry w !! p = Some h
  end.
Proof.
  unfold acquire_result, run_acquire. intros [Hr Hw].
  destruct i as [h0|]; [now cbn in Hr|].
  destruct (init_ain_first p w) as [R _]. now rewrite Hr, Hw in R.
Qed.

(** What a well-formed config leaves behind, in any later state that
    kept what was there. *)
Lemma load_pause_leaves (fs : files) (filename : string) (w w' : World)
    (p : pin) (d : Direction) :
  registry_live w ->
  classify fs filename = WellFormed p d ->
  extends (snd (_load_pause_from_file fs filename w)) w' ->
  exists h o,
    fst (_load_pause_from_file fs filename w) = Ret (Some h)
    /\ _dio_registry w' !! p = Some h
    /\ dio_heap w' !! h = Some o
    /\ direction o = d.
Proof.
  intros L C. rewrite load_pause_cases, C.
  pose proof (init_dio_live p w L) as Hlt.
  destruct (init_dio_first p w) as [R _].
  apply lookup_lt_is_Some in Hlt. destruct Hlt as [o0 Ho].
  destruct (_init_dio None p w) as [h w1]. cbn [fst snd] in *.
  destruct d; cbv zeta; cbn [fst snd]; intros (Ed & _ & Eo & _).
  - exists h, {| dio_pin := dio_pin o0; direction := INPUT; pull := Some UP |}.
    repeat split; [now apply Ed|]. apply Eo. unfold set_pull, set_direction.
    exact (update_dio_lookup _ h _ _ (update_dio_lookup _ h _ _ Ho)).
  - exists h, {| dio_pin := dio_pin o0; direction := OUTPUT; pull := pull o0 |}.
    repeat split; [now apply Ed|]. apply Eo. unfold set_direction.
    exact (update_dio_lookup _ h _ _ Ho).
Qed.

(** X10. When the constructor returns, every input whose argument was
    given holds that very handle, and every input whose argument was left
    out holds the handle its registry has for the board pin of the input.
    With a well-formed config and no pause argument, in a process whose
    registry handles are live, the pause handle is the handle the digital
    registry has for the configured pin, and that object still has the
    configured direction: the later requests of the constructor do not
    reset it. So a config that names the pin of an input makes the pause
    handle and the handle of that input one object. *)
Theorem construction_takes_registry_entries (fs : files) (hw : Hardware) (a : Args)
    (w : World) :
  exists k w',
    __init__ fs hw a w = (Ret k, w')
    /\ Forall (fun '((arg, board_pin, h) : option handle * pin * handle) =>
         match arg with
         | Some h0 => h = h0
         | None => _dio_registry w' !! board_pin = Some h
         end) (digital_wiring a k)
    /\ Forall (fun '((arg, board_pin, h) : option handle * pin * handle) =>
         match arg with
         | Some h0 => h = h0
         | None => _ain_registry w' !! board_pin = Some h
         end) (analog_wiring a k)
    /\ (arg_pause a = None -> registry_live w ->
         forall p d,
           classify fs (arg_pause_config_file a) = WellFormed p d ->
           exists h o,
             pause k = Some h
             /\ _dio_registry w' !! p = Some h
             /\ dio_heap w' !! h = Some o
             /\ direction o = d).
Proof.
  destruct (init_run fs hw a w) as (k & E & Hp & Hh & _).
  set (w0 := after_pause fs a w) in *.
  set (w' := run_acquires (init_acquires a) w0) in *.
  exists k, w'. split; [exact E|].
  destruct (acquires_settled (init_acquires a) w0 w' (extends_refl _))
    as (_ & _ & Hall).
  rewrite <- Hh in Hall. unfold init_acquires, handles_of in Hall.
  repeat match goal with
         | H : Forall2 _ (_ :: _) (_ :: _) |- _ =>
             apply Forall2_cons in H; destruct H as [? H]
         end.
  split; [|split].
  - unfold digital_wiring. each_input; now apply settled_entry_dio.
  - unfold analog_wiring. each_input; now apply settled_entry_ain.
  - intros Hnone L p d C.
    assert (extends (snd (_load_pause_from_file fs (arg_pause_config_file a) w)) w')
      as X.
    { subst w' w0. unfold after_pause. rewrite Hnone. apply acquires_extend. }
    destruct (load_pause_leaves fs _ w w' p d L C X) as (h & o & Hr & Hreg & Ho & Hd).
    exists h, o. repeat split; try assumption.
    rewrite Hp. unfold pause_choice. now rewrite Hnone, Hr.
Qed.

(** X11. A handle passed as an argument is never entered in the
    registry: with the pin not registered, [_init_dio] returns the given
    handle and changes nothing, and the next request for the same pin
    without argument builds a new object, different from every object
    there was, and binds the pin once more. The analog helper does the
    same. *)
Theorem supplied_instance_is_not_registered (h : handle) (p : pin) (w : World) :
  (_dio_registry w !! p = None ->
     _init_dio (Some h) p w = (h, w)
     /\ fst (_init_dio None p (snd (_init_dio (Some h) p w))) = length (dio_heap w)
     /\ (h < length (dio_heap w) ->
          fst (_init_dio None p (snd (_init_dio (Some h) p w))) <> h)
     /\ times p (dio_bound (snd (_init_dio None p (snd (_init_dio (Some h) p w)))))
        = times p (dio_bound w) + 1)
  /\ (_ain_registry w !! p = None ->
       _init_ain (Some h) p w = (h, w)
       /\ fst (_init_ain None p (snd (_init_ain (Some h) p w))) = length (ain_heap w)
       /\ (h < length (ain_heap w) ->
            fst (_init_ain None p (snd (_init_ain (Some h) p w))) <> h)
       /\ times p (ain_bound (snd (_init_ain None p (snd (_init_ain (Some h) p w)))))
          = times p (ain_bound w) + 1).
Proof.
  split; intros E; (split; [reflexivity|]).
  - change (snd (_init_dio (Some h) p w)) with w.
    rewrite (init_dio_miss _ _ E). cbn [fst snd]. repeat split; [lia|].
    unfold dio_bound. cbn. rewrite fmap_app. cbn. rewrite times_snoc.
    now destruct (decide (p = p)).
  - change (snd (_init_ain (Some h) p w)) with w.
    rewrite (init_ain_miss _ _ E). cbn [fst snd]. repeat split; [lia|].
    unfold ain_bound. cbn. rewrite fmap_app. cbn. rewrite times_snoc.
    now destruct (decide (p = p)).
Qed.

(** X12. The two registries do not know of each other. A request to one
    leaves the registry and the objects of the other as they were, and a
    pin that neither has registered, requested from both, is bound once
    in the digital and once in the analog driver, with no cross-check. *)
Theorem registries_are_independent (i : option handle) (p : pin) (w : World) :
  _ain_registry (snd (_init_dio i p w)) = _ain_registry w
  /\ ain_heap (snd (_init_dio i p w)) = ain_heap w
  /\ _dio_registry (snd (_init_ain i p w)) = _dio_registry w
  /\ dio_heap (snd (_init_ain i p w)) = dio_heap w
  /\ (_dio_registry w !! p = None -> _ain_registry w !! p = None ->
       let w' := snd (_init_ain None p (snd (_init_dio None p w))) in
       _dio_registry w' !! p = Some (length (dio_heap w))
       /\ _ain_registry w' !! p = Some (length (ain_heap w))
       /\ times p (dio_bound w') = times p (dio_bound w) + 1
       /\ times p (ain_bound w') = times p (ain_bound w) + 1).
Proof.
  assert (forall j, _ain_registry (snd (_init_dio j p w)) = _ain_registry w
                    /\ ain_heap (snd (_init_dio j p w)) = ain_heap w) as Hd.
  { intros [j|]; [now split|]. destruct (_dio_registry w !! p) as [h|] eqn:E.
    - now rewrite (init_dio_hit _ _ _ E).
    - now rewrite (init_dio_miss _ _ E). }
  assert (forall j, _dio_registry (snd (_init_ain j p w)) = _dio_registry w
                    /\ dio_heap (snd (_init_ain j p w)) = dio_heap w) as Ha.
  { intros [j|]; [now split|]. destruct (_ain_registry w !! p) as [h|] eqn:E.
    - now rewrite (init_ain_hit _ _ _ E).
    - now rewrite (init_ain_miss _ _ E). }
  destruct (Hd i) as [Hd1 Hd2]. destruct (Ha i) as [Ha1 Ha2].
  repeat split; try assumption.
  all: cbn zeta; rewrite (init_dio_miss _ _ H); cbn [snd];
       rewrite init_ain_miss by exact H0; cbn [snd];
       unfold dio_bound, ain_bound; cbn;
       rewrite ?lookup_insert_eq, ?fmap_app; cbn; rewrite ?times_snoc;
       try reflexivity; now destruct (decide (p = p)).
Qed.

End Worlds.


Lemma registries_stay_exact_witness :
  registry_exact empty_world
  /\ registry_exact
       (snd (__init__ (Sample.one_file "D15,IN") Sample.idle default_args empty_world)).
Proof.
  destruct (registries_stay_exact (Sample.one_file "D15,IN") Sample.config_name
              Sample.idle default_args None 15%N empty_world) as [X H].
  split; [exact X|]. destruct (H X) as (_ & _ & _ & Hi & _). exact Hi.
Defined.

Lemma construction_takes_registry_entries_witness :
  classify (Sample.one_file "D18,OUT") (arg_pause_config_file default_args)
  = WellFormed 18%N OUTPUT
  /\ exists k w',
       __init__ (Sample.one_file "D18,OUT") Sample.idle default_args empty_world
       = (Ret k, w')
       /\ exists h o,
            pause k = Some h
            /\ _dio_registry w' !! 18%N = Some h
            /\ dio_heap w' !! h = Some o
            /\ direction o = OUTPUT.
Proof.
  split; [reflexivity|].
  destruct (construction_takes_registry_entries (Sample.one_file "D18,OUT")
              Sample.idle default_args empty_world) as (k & w' & E & _ & _ & H).
  exists k, w'. split; [exact E|].
  apply (H eq_refl); [|reflexivity].
  intros p h. cbn. rewrite lookup_empty. intros [=].
Defined.

Lemma supplied_instance_is_not_registered_witness :
  _dio_registry Sample.after_first_kit !! 15%N = None
  /\ _init_dio (Some 0) 15%N Sample.after_first_kit = (0, Sample.after_first_kit)
  /\ fst (_init_dio None 15%N Sample.after_first_kit) = 8.
Proof.
  split; [reflexivity|].
  destruct (supplied_instance_is_not_registered 0 15%N Sample.after_first_kit)
    as [H _].
  destruct H as (H1 & H2 & _); [reflexivity|].
  split; [exact H1 | exact H2].
Defined.

Lemma registries_are_independent_witness :
  _dio_registry empty_world !! 36%N = None
  /\ _ain_registry empty_world !! 36%N = None
  /\ times 36%N (dio_bound (snd (_init_ain None 36%N (snd (_init_dio None 36%N empty_world)))))
     = 1
  /\ times 36%N (ain_bound (snd (_init_ain None 36%N (snd (_init_dio None 36%N empty_world)))))
     = 1.
Proof.
  split; [reflexivity|]. split; [reflexivity|].
  destruct (registries_are_independent None 36%N empty_world)
    as (_ & _ & _ & _ & H).
  destruct H as (_ & _ & H1 & H2); [reflexivity | reflexivity |].
  split; [exact H1 | exact H2].
Defined.

(** ** The loaders on text, and [PauseButton] beside the registries *)

Section Text.
Context {board : Board}.

Lemma rev_app_app (s t acc : string) :
  String.rev_app (s +:+ t) acc = String.rev_app t (String.rev_app s acc).
Proof.
  revert acc. induction s as [|c s IH]; intros acc; [reflexivity|].
  change (String c s +:+ t) with (String c (s +:+ t)).
  cbn [String.rev_app]. apply IH.
Qed.

Lemma rstrip_line_feed (s : string) : rstrip (s +:+ LF) = rstrip s.
Proof.
  unfold rstrip, String.rev. rewrite rev_app_app. reflexivity.
Qed.

Lemma lstrip_line_feed (s : string) :
  lstrip (s +:+ LF) = (if blank s then "" else lstrip s +:+ LF).
Proof.
  induction s as [|c s IH]; [reflexivity|].
  cbn [blank]. change (String c s +:+ LF) with (String c (s +:+ LF)).
  cbn [lstrip]. destruct (isspace c); [exact IH | reflexivity].
Qed.

Lemma lstrip_blank (s : string) : blank s = true -> lstrip s = "".
Proof.
  induction s as [|c s IH]; [reflexivity|]. cbn.
  destruct (isspace c); [exact IH | intros [=]].
Qed.

(** A line feed at the end of a text is stripped with the rest. *)
Lemma strip_line_feed (s : string) : strip (s +:+ LF) = strip s.
Proof.
  unfold strip. rewrite lstrip_line_feed.
  destruct (blank s) eqn:B.
  - now rewrite (lstrip_blank _ B).
  - apply rstrip_line_feed.
Qed.

Lemma readline_one_line (s : string) : one_line s = true -> readline s = s.
Proof.
  induction s as [|c s IH]; [reflexivity|]. cbn.
  destruct (Ascii.eqb c "010"); [intros [=]|]. cbn. intros H. now rewrite IH.
Qed.

Lemma readline_first_line (line rest : string) :
  one_line line = true -> readline (line +:+ LF +:+ rest) = line +:+ LF.
Proof.
  induction line as [|c s IH]; [reflexivity|].
  change (String c s +:+ LF +:+ rest) with (String c (s +:+ LF +:+ rest)).
  change (String c s +:+ LF) with (String c (s +:+ LF)).
  cbn [one_line readline].
  destruct (Ascii.eqb c "010"); [intros [=]|]. cbn [negb andb]. intros H.
  f_equal. exact (IH H).
Qed.

(** X13. Both loaders read the first line only: a file that goes on after
    the first line feed, with whatever text, is loaded exactly as the
    file that holds the first line alone, by the loader of [PixelKit] in
    every state and by the loader of [PauseButton] with every default. *)
Theorem loaders_read_first_line_only (fs1 fs2 : files) (filename line rest : string)
    (default_pin default_dir : string) (w : World) :
  one_line line = true ->
  fs1 filename = Some (line +:+ LF +:+ rest) ->
  fs2 filename = Some line ->
  classify fs1 filename = classify fs2 filename
  /\ _load_pause_from_file fs1 filename w = _load_pause_from_file fs2 filename w
  /\ PauseButton._load_from_file fs1 filename default_pin default_dir w
     = PauseButton._load_from_file fs2 filename default_pin default_dir w.
Proof.
  intros H1 Hf1 Hf2.
  assert (classify fs1 filename = classify fs2 filename) as C.
  { unfold classify, config_fields. rewrite Hf1, Hf2.
    now rewrite (readline_first_line _ _ H1), (readline_one_line _ H1),
      strip_line_feed. }
  split; [exact C|]. split.
  - now rewrite !load_pause_cases, C.
  - now rewrite !load_from_file_cases, C.
Qed.

Lemma new_dio_alloc (p : pin) (w : World) :
  new_dio p w
  = (length (dio_heap w),
     alloc_dio {| dio_pin := p; direction := INPUT; pull := None |} w).
Proof. reflexivity. Qed.

Lemma update_dio_alloc (f : DigitalInOut -> DigitalInOut) (o : DigitalInOut) (w : World) :
  update_dio f (length (dio_heap w)) (alloc_dio o w) = alloc_dio (f o) w.
Proof.
  unfold update_dio, alloc_dio. cbn [dio_heap ain_heap _dio_registry _ain_registry].
  unfold handle in *. now rewrite snoc_lookup, snoc_insert.
Qed.

(** [PauseButton]'s loader ends in the state it began in, or in that
    state with one new object, which is the one it returns. *)
Lemma load_from_file_shape (fs : files) (filename default_pin default_dir : string)
    (w : World) :
  let r := PauseButton._load_from_file fs filename default_pin default_dir w in
  (snd r = w /\ forall h, fst r <> Ret h)
  \/ (exists o, snd r = alloc_dio o w
                /\ forall h, fst r = Ret h -> h = length (dio_heap w)).
Proof.
  assert (forall pn dr,
    let r := PauseButton.configure pn dr w in
    (snd r = w /\ forall h, fst r <> Ret h)
    \/ (exists o, snd r = alloc_dio o w
                  /\ forall h, fst r = Ret h -> h = length (dio_heap w))) as Hc.
  { intros pn dr. unfold PauseButton.configure.
    destruct (board_getattr pn) as [[p|]|];
      [|left; split; [reflexivity | intros h [=]]..].
    rewrite new_dio_alloc. unfold set_pull, set_direction.
    destruct (String.eqb (upper dr) "IN"); [|destruct (String.eqb (upper dr) "OUT")];
      cbv zeta; cbn [fst snd]; rewrite ?update_dio_alloc; right;
      eexists; (split; [reflexivity|]); intros h [=]; congruence. }
  cbv zeta. rewrite load_from_file_cases.
  destruct (classify fs filename) as [| | | | |p f|p []]; try apply Hc;
    try (left; split; [reflexivity | intros h [=]]);
    rewrite new_dio_alloc; cbn [fst snd]; unfold set_pull, set_direction;
    rewrite ?update_dio_alloc; right; eexists; (split; [reflexivity|]);
    intros h [=]; congruence.
Qed.

Lemma dio_bound_alloc (o : DigitalInOut) (w : World) :
  dio_bound (alloc_dio o w) = dio_bound w ++ [dio_pin o].
Proof. unfold dio_bound, alloc_dio. cbn [dio_heap]. now rewrite fmap_app. Qed.

(** X14. The loader of [PauseButton] goes past the registries of
    [PixelKit]: whatever the file and the defaults, it leaves both
    registries, every analog object and every digital object that was
    there as they were; when it returns, it returns an object it has just
    made; and on a well-formed line it binds the pin once more, also a pin
    that has an entry in the registry and an object of [PixelKit] on it. *)
Theorem pause_button_loader_bypasses_registry (fs : files)
    (filename default_pin default_dir : string) (w : World) :
  let r := PauseButton._load_from_file fs filename default_pin default_dir w in
  extends w (snd r)
  /\ _dio_registry (snd r) = _dio_registry w
  /\ _ain_registry (snd r) = _ain_registry w
  /\ ain_heap (snd r) = ain_heap w
  /\ (forall h, fst r = Ret h ->
        dio_heap w !! h = None
        /\ length (dio_heap (snd r)) = S (length (dio_heap w))
        /\ exists o, dio_heap (snd r) !! h = Some o)
  /\ (forall p d, classify fs filename = WellFormed p d ->
        fst r = Ret (length (dio_heap w))
        /\ times p (dio_bound (snd r)) = times p (dio_bound w) + 1).
Proof.
  cbv zeta.
  destruct (load_from_file_shape fs filename default_pin default_dir w)
    as [[E Hno] | (o & E & Hret)]; cbv zeta in *.
  - rewrite E. split; [apply extends_refl|]. repeat split; try reflexivity.
    + now apply Hno in H.
    + now apply Hno in H.
    + now apply Hno in H.
    + rewrite load_from_file_cases, H in Hno.
      destruct d; now destruct (Hno (length (dio_heap w))).
    + rewrite load_from_file_cases, H in Hno.
      destruct d; now destruct (Hno (length (dio_heap w))).
  - rewrite E. split; [|split; [reflexivity|split; [reflexivity|split; [reflexivity|split]]]].
    + repeat split; cbn; try tauto.
      intros h o' Hl. apply lookup_app_l_Some. exact Hl.
    + intros h Hh. apply Hret in Hh. subst h. split; [|split].
      * apply lookup_ge_None. unfold handle. lia.
      * cbn. rewrite length_app. cbn. lia.
      * exists o. cbn. apply snoc_lookup.
    + intros p d Hc. rewrite load_from_file_cases, Hc in *.
      assert (dio_pin o = p) as Hp.
      { destruct d; rewrite new_dio_alloc in E; cbn [fst snd] in E;
          unfold set_pull, set_direction in E; rewrite ?update_dio_alloc in E;
          cbn [snd] in E;
          apply (f_equal dio_heap) in E; cbn in E;
          apply app_inv_head in E; injection E as <-; reflexivity. }
      split; [now destruct d|].
      rewrite dio_bound_alloc, times_snoc, Hp. now destruct (decide (p = p)).
Qed.

End Text.

(** ** Runs of poll cycles and the pause check *)

Section PauseRuns.

Lemma is_strip_digital (hw : Hardware) (dio : handle) (pressing : bool) (f : Hook) :
  List.filter is_strip (digital_segment hw dio pressing f) = [].
Proof.
  unfold digital_segment.
  now destruct (negb (dvalue hw dio) && negb pressing).
Qed.

Lemma is_strip_analog (hw : Hardware) (ain : handle) (stored : Z) (f : Hook) :
  List.filter is_strip (analog_segment hw ain stored f) = [].
Proof. unfold analog_segment. now destruct (avalue hw ain =? stored)%Z. Qed.

(** The ten scans of a poll cycle up to the pause check. *)
Lemma scan_before_pause (hw : Hardware) (k : PixelKit) :
  exists pre, scan_order_trace hw k = pre ++ pause_segment hw (pause k)
              /\ List.filter is_strip pre = [].
Proof.
  unfold scan_order_trace.
  eexists. split.
  - rewrite !app_assoc. reflexivity.
  - now rewrite !List.filter_app, !is_strip_digital, !is_strip_analog.
Qed.

(** X15. A run of poll cycles goes on until the first cycle in which the
    pause handle reads active, and that cycle is the last one: the cycles
    that run are the ones with the handle inactive and one more, if there
    is one. While the handle reads inactive, or when there is none, the
    strip is never touched. If the handle reads active in some cycle, the
    whole run ends with the read of the pause handle, [fill] with black
    and [show], and these are the only calls to the strip in the run. *)
Theorem run_ends_at_first_pause (hws : list Hardware) (k : PixelKit) :
  let run := per_step check_controls hws k in
  length (fst run) = Nat.min (length hws) (S (length (idle_prefix (pause k) hws)))
  /\ (forallb (reads_idle (pause k)) hws = true ->
        List.filter is_strip (concat (fst run)) = [])
  /\ (forallb (reads_idle (pause k)) hws = false ->
        exists p pre,
          pause k = Some p
          /\ concat (fst run)
             = pre ++ [ReadDigital p; StripFill (0, 0, 0)%Z; StripShow]
          /\ List.filter is_strip pre = []).
Proof.
  cbv zeta. revert k. induction hws as [|hw hws IH]; intros k.
  - cbn. repeat split; auto. intros [=].
  - cbn [per_step]. rewrite check_controls_run.
    destruct (scan_before_pause hw k) as (pre & Epre & Hpre).
    specialize (IH (after_poll hw k)).
    change (pause (after_poll hw k)) with (pause k) in IH.
    cbn [forallb idle_prefix].
    destruct (reads_idle (pause k) hw) eqn:Ei.
    + assert (pause_result hw (pause k) = Ret tt
              /\ List.filter is_strip (pause_segment hw (pause k)) = []) as [Er Es].
      { unfold reads_idle in Ei. unfold pause_result, pause_segment.
        destruct (pause k); [rewrite Ei|]; now cbn. }
      rewrite Er.
      destruct (per_step check_controls hws (after_poll hw k)) as [ts k'].
      cbn [fst snd length concat andb] in *.
      destruct IH as (Hlen & Hidle & Hact).
      split; [rewrite Hlen; lia|]. split.
      * intros Hall. rewrite List.filter_app, (Hidle Hall), Epre,
          List.filter_app, Hpre, Es. reflexivity.
      * intros Hall. destruct (Hact Hall) as (p' & pre' & Hp' & Hc & Hf).
        exists p', (scan_order_trace hw k ++ pre'). split; [exact Hp'|].
        split; [rewrite Hc; now rewrite app_assoc|].
        rewrite List.filter_app, Hf, Epre, List.filter_app, Hpre, Es. reflexivity.
    + assert (exists p, pause k = Some p /\ dvalue hw p = false) as (p & Ep & Ev).
      { unfold reads_idle in Ei. destruct (pause k) as [p|]; [eauto | discriminate]. }
      clear IH. rewrite Ep in *. unfold pause_result, pause_segment in *.
      rewrite Ev in *. cbn [negb] in *.
      cbn [fst snd length concat andb]. split; [lia|]. split; [intros [=]|].
      intros _. exists p, pre. split; [reflexivity|].
      split; [now rewrite app_nil_r | exact Hpre].
Qed.

End PauseRuns.

Lemma load_pause_frame_witness :
  _dio_registry
    (snd (_load_pause_from_file (Sample.one_file "D15,IN") Sample.config_name
            Sample.after_first_kit)) !! 15%N = Some 8
  /\ (_dio_registry Sample.after_first_kit !! 15%N = Some 8 \/ 15%N = 15%N).
Proof.
  split; [reflexivity|].
  destruct (load_pause_frame (Sample.one_file "D15,IN") Sample.config_name
              Sample.after_first_kit) as (_ & _ & _ & _ & H).
  apply (H 15%N 8). reflexivity.
Defined.

Lemma loaders_read_first_line_only_witness :
  one_line "D15,IN" = true
  /\ _load_pause_from_file
       (Sample.one_file ("D15,IN" +:+ LF +:+ "D18,OUT" +:+ LF)) Sample.config_name
       empty_world
     = _load_pause_from_file (Sample.one_file "D15,IN") Sample.config_name empty_world.
Proof.
  split; [reflexivity|].
  destruct (loaders_read_first_line_only
              (Sample.one_file ("D15,IN" +:+ LF +:+ "D18,OUT" +:+ LF))
              (Sample.one_file "D15,IN") Sample.config_name "D15,IN"
              ("D18,OUT" +:+ LF) "IO15" "IN" empty_world)
    as (_ & H & _); [reflexivity | reflexivity | reflexivity |].
  exact H.
Defined.

Lemma pause_button_loader_bypasses_registry_witness :
  classify (Sample.one_file "D18,IN") Sample.config_name = WellFormed 18%N INPUT
  /\ _dio_registry Sample.after_first_kit !! 18%N = Some 0
  /\ fst (PauseButton._load_from_file (Sample.one_file "D18,IN") Sample.config_name
            "IO15" "IN" Sample.after_first_kit) = Ret 8
  /\ times 18%N
       (dio_bound
          (snd (PauseButton._load_from_file (Sample.one_file "D18,IN")
                  Sample.config_name "IO15" "IN" Sample.after_first_kit)))
     = times 18%N (dio_bound Sample.after_first_kit) + 1.
Proof.
  split; [reflexivity|]. split; [reflexivity|].
  destruct (pause_button_loader_bypasses_registry (Sample.one_file "D18,IN")
              Sample.config_name "IO15" "IN" Sample.after_first_kit)
    as (_ & _ & _ & _ & _ & H).
  destruct (H 18%N INPUT) as [H1 H2]; [reflexivity|].
  split; [exact H1 | exact H2].
Defined.

Lemma run_ends_at_first_pause_witness :
  forallb (reads_idle (pause Sample.kit))
    [Sample.idle; Sample.pressed 0; Sample.idle] = false
  /\ length (fst (per_step check_controls
                    [Sample.idle; Sample.pressed 0; Sample.idle] Sample.kit)) = 2
  /\ exists p pre,
       pause Sample.kit = Some p
       /\ concat (fst (per_step check_controls
                         [Sample.idle; Sample.pressed 0; Sample.idle] Sample.kit))
          = pre ++ [ReadDigital p; StripFill (0, 0, 0)%Z; StripShow]
       /\ List.filter is_strip pre = [].
Proof.
  split; [reflexivity|].
  destruct (run_ends_at_first_pause [Sample.idle; Sample.pressed 0; Sample.idle]
              Sample.kit) as (Hlen & _ & H).
  split; [exact Hlen | exact (H eq_refl)].
Defined.
